(* Shallow embedding of the data-processing and persistence core of
   weather-app-backend:
     - functions/database/models.py      (the batch_save methods of
                                           ObservationData, ThreeHourForecast,
                                           WeeklyForecast, UVIndexData and
                                           AirQualityData; get_firestore_client,
                                           get_r2_client, ClientPreloader)
     - functions/utils/data_processing.py (parse_weather_description,
                                           extract_observation_data,
                                           extract_radar_rainfall,
                                           extract_uv_data,
                                           extract_air_quality_data,
                                           extract_three_hour_forecast,
                                           extract_weekly_forecast)
     - functions/main.py                  (the extract-and-save steps of
                                           update_current_weather,
                                           update_uv_index,
                                           update_air_quality)
   Python strings are modelled as Rocq strings holding their UTF-8 bytes;
   splitting, searching and slicing on UTF-8 agree with the code-point
   operations of Python because UTF-8 is self-synchronising.
   Raised exceptions are modelled as the left side of a sum. *)

From Stdlib Require Import String Ascii List Bool ZArith QArith Qround Lia.
Import ListNotations.
Open Scope nat_scope.
Open Scope string_scope.
Open Scope list_scope.

(* ------------------------------------------------------------------ *)
(** * Exceptions that the modelled code raises or catches *)

Inductive exn : Type :=
| ResourceExhausted          (* google.api_core.exceptions *)
| DeadlineExceeded           (* google.api_core.exceptions *)
| KeyError
| ValueError
| IndexError
| GenericError.              (* any other Exception from the store *)

Definition exn_eqb (a b : exn) : bool :=
  match a, b with
  | ResourceExhausted, ResourceExhausted | DeadlineExceeded, DeadlineExceeded
  | KeyError, KeyError | ValueError, ValueError | IndexError, IndexError
  | GenericError, GenericError => true
  | _, _ => false
  end.

(* ------------------------------------------------------------------ *)
(** * models.py: batch_save with the quota circuit breaker *)

Module Batch.

(** [except (ResourceExhausted, DeadlineExceeded)] *)
Definition is_quota (e : exn) : bool :=
  match e with ResourceExhausted | DeadlineExceeded => true | _ => false end.

(** What is written into [failed_items[i]['error']]: either the shared
    circuit-breaker text or the text of a caught exception. *)
Inductive fail_reason : Type :=
| QuotaAborted                (* 'Firestore quota exceeded. Write operation aborted.' *)
| Raised (e : exn).

(** [failed_items] entry: the two identity fields read with [data.get]
    and the error. *)
Definition failed_item : Type := (option string * option string * fail_reason)%type.

Record stats : Type := mkStats {
  total_attempts : nat;
  success_count : nat;
  failed_count : nat;
  failed_items : list failed_item
}.

(** The Firestore client is opaque: each [batch.set] and [batch.commit]
    call consumes the next outcome of a script ([None]: the call returns,
    [Some e]: it raises [e]); an exhausted script answers with success. *)
Definition store := list (option exn).

Definition pop (s : store) : option exn * store :=
  match s with
  | [] => (None, [])
  | o :: s' => (o, s')
  end.

(** Local state of the loop: [stats], [count], [circuit_open] and the
    remaining store answers. *)
Record loop_state : Type := mkLS {
  ls_stats : stats;
  ls_count : nat;
  ls_circuit : bool;
  ls_store : store
}.

Section BatchSave.

Variable A : Type.
(** Building the model object and [model.to_dict()] from one input
    dict: [Some e] when a key lookup or a [float] conversion raises. *)
Variable build : A -> option exn.
(** The two identity fields read with [data.get] for [failed_items]. *)
Variable ident : A -> option string * option string.

Definition add_failure (st : stats) (data : A) (r : fail_reason) : stats :=
  let '(i1, i2) := ident data in
  mkStats (total_attempts st) (success_count st) (S (failed_count st))
          (failed_items st ++ [(i1, i2, r)]).

Definition add_success (st : stats) : stats :=
  mkStats (total_attempts st) (S (success_count st)) (failed_count st)
          (failed_items st).

(** The two [except] clauses of the per-item [try]: a quota error opens
    the circuit, is recorded and re-raised ([raise]); any other error is
    recorded and the loop continues. *)
Definition handle (ls : loop_state) (data : A) (e : exn)
  : (exn * loop_state) + loop_state :=
  if is_quota e then
    inl (e, mkLS (add_failure (ls_stats ls) data (Raised e)) (ls_count ls)
                 true (ls_store ls))
  else
    inr (mkLS (add_failure (ls_stats ls) data (Raised e)) (ls_count ls)
              (ls_circuit ls) (ls_store ls)).

(** One iteration of [for data in observations:]. *)
Definition save_item (batch_size : Z) (ls : loop_state) (data : A)
  : (exn * loop_state) + loop_state :=
  if ls_circuit ls then
    inr (mkLS (add_failure (ls_stats ls) data QuotaAborted) (ls_count ls)
              (ls_circuit ls) (ls_store ls))
  else
    match build data with
    | Some e => handle ls data e
    | None =>
        (* batch.set(doc_ref, model.to_dict(), merge=True) *)
        let '(o, s1) := pop (ls_store ls) in
        match o with
        | Some e => handle (mkLS (ls_stats ls) (ls_count ls) (ls_circuit ls) s1) data e
        | None =>
            (* count += 1; stats['success_count'] += 1 *)
            let c := S (ls_count ls) in
            let st := add_success (ls_stats ls) in
            if (batch_size <=? Z.of_nat c)%Z then
              (* batch.commit(); batch = db.batch(); count = 0 *)
              let '(o2, s2) := pop s1 in
              match o2 with
              | Some e => handle (mkLS st c (ls_circuit ls) s2) data e
              | None => inr (mkLS st 0 (ls_circuit ls) s2)
              end
            else inr (mkLS st c (ls_circuit ls) s1)
        end
    end.

Fixpoint save_loop (batch_size : Z) (ls : loop_state) (items : list A)
  : (exn * loop_state) + loop_state :=
  match items with
  | [] => inr ls
  | d :: ds =>
      match save_item batch_size ls d with
      | inl r => inl r
      | inr ls' => save_loop batch_size ls' ds
      end
  end.

(** [batch_save]: [inl (e, stats)] when it raises [e] (with the local
    [stats] at that moment), [inr stats] when it returns. *)
Definition batch_save (items : list A) (batch_size : Z) (s : store)
  : (exn * stats) + stats :=
  let ls0 := mkLS (mkStats (length items) 0 0 []) 0 false s in
  match save_loop batch_size ls0 items with
  | inl (e, ls) => inl (e, ls_stats ls)
  | inr ls =>
      if (0 <? ls_count ls)%nat && negb (ls_circuit ls) then
        (* final batch.commit(); an error goes to the outer handler, which
           re-raises it *)
        match fst (pop (ls_store ls)) with
        | Some e => inl (e, ls_stats ls)
        | None => inr (ls_stats ls)
        end
      else inr (ls_stats ls)
  end.

End BatchSave.

(** Input dicts of [ObservationData.batch_save]: each field is [None]
    when the key is absent; the numeric fields are [Some None] when
    [float(...)] raises [ValueError]. *)
Record obs_input : Type := mkObsInput {
  oi_stationId : option string;
  oi_stationName : option string;
  oi_latitude : option (option Q);
  oi_longitude : option (option Q);
  oi_observations : option (list (string * string))
}.

(** [data['k']] raises [KeyError] on absence, [float(...)] raises
    [ValueError] on a non-numeric value. *)
Definition need {T} (o : option T) : option exn :=
  match o with Some _ => None | None => Some KeyError end.

Definition need_float (o : option (option Q)) : option exn :=
  match o with
  | None => Some KeyError
  | Some None => Some ValueError
  | Some (Some _) => None
  end.

Definition first_error (l : list (option exn)) : option exn :=
  fold_right (fun o acc => match o with Some e => Some e | None => acc end) None l.

(** [ObservationData(station_id=data['stationId'], ...)] evaluates its
    arguments left to right. *)
Definition obs_build (d : obs_input) : option exn :=
  first_error [need (oi_stationId d); need (oi_stationName d);
               need_float (oi_latitude d); need_float (oi_longitude d);
               need (oi_observations d)].

Definition obs_ident (d : obs_input) : option string * option string :=
  (oi_stationId d, oi_stationName d).

Definition ObservationData_batch_save :=
  batch_save obs_input obs_build obs_ident.

(** Input dicts of [ThreeHourForecast.batch_save]. *)
Record fc_input : Type := mkFcInput {
  fi_countyName : option string;
  fi_townName : option string;
  fi_latitude : option (option Q);
  fi_longitude : option (option Q);
  fi_forecasts : option (list (string * string))
}.

Definition fc_build (d : fc_input) : option exn :=
  first_error [need (fi_countyName d); need (fi_townName d);
               need_float (fi_latitude d); need_float (fi_longitude d);
               need (fi_forecasts d)].

Definition fc_ident (d : fc_input) : option string * option string :=
  (fi_countyName d, fi_townName d).

Definition ThreeHourForecast_batch_save :=
  batch_save fc_input fc_build fc_ident.

Definition WeeklyForecast_batch_save :=
  batch_save fc_input fc_build fc_ident.

(** The document id [f"{station_name}_{station_id}"] of
    [ObservationData], [UVIndexData] and [AirQualityData], and
    [f"{county_name}_{town_name}"] of the forecast models. *)
Definition doc_id (a b : string) : string := String.append a (String.append "_" b).

(** Readings of a [batch_save] run. *)
(** Consistency of the [stats] mapping built by the loop. *)
Definition wf_stats (N : nat) (st : stats) : Prop :=
  length (failed_items st) = failed_count st
  /\ total_attempts st = N
  /\ Forall (fun it : failed_item => snd it <> QuotaAborted) (failed_items st).

Definition stats_of (r : (exn * stats) + stats) : stats :=
  match r with inl (_, st) => st | inr st => st end.

Section BatchSummary.

Variable A : Type.
Variable build : A -> option exn.
Variable ident : A -> option string * option string.

(** Expected stats of a run where every store call succeeds. *)
Definition build_ok (d : A) : bool := match build d with None => true | Some _ => false end.

Definition build_failures (items : list A) : list failed_item :=
  flat_map (fun d => match build d with
                     | Some e => [(fst (ident d), snd (ident d), Raised e)]
                     | None => [] end) items.

End BatchSummary.

Arguments build_ok {A} build d.
Arguments build_failures {A} build ident items.

(** A well-formed observation input used in the concrete runs below. *)
Definition obs_ok (id : string) : obs_input :=
  mkObsInput (Some id) (Some (String.append "st" id)) (Some (Some 25%Q)) (Some (Some 121%Q)) (Some []).

End Batch.
(* ------------------------------------------------------------------ *)
(** * Python string operations used by the parsers (on UTF-8 bytes) *)

Module PyStr.

(** [sub in s] *)
Fixpoint contains (sub s : string) : bool :=
  prefix sub s ||
  match s with
  | EmptyString => false
  | String _ s' => contains sub s'
  end.

(** [s.find(sub)], [None] standing for [-1]. *)
Fixpoint find (sub s : string) : option nat :=
  if prefix sub s then Some 0
  else match s with
       | EmptyString => None
       | String _ s' => option_map S (find sub s')
       end.

(** [s.split(sep)] for a non-empty [sep]: [skip] counts the bytes of a
    separator still to be dropped, [cur] is the field being read. *)
Fixpoint split_go (sep s : string) (skip : nat) (cur : string) : list string :=
  match s with
  | EmptyString => [cur]
  | String c s' =>
      match skip with
      | S k => split_go sep s' k cur
      | O => if prefix sep s then cur :: split_go sep s' (String.length sep - 1) ""
             else split_go sep s' 0 (String.append cur (String c ""))
      end
  end.

Definition split (sep s : string) : list string := split_go sep s 0 "".

(** [str.isspace] on one byte: the ASCII whitespace of Python
    ([\t\n\x0b\x0c\r], [\x1c]-[\x1f] and space). Non-ASCII whitespace
    such as U+3000 is not modelled. *)
Definition is_space (c : ascii) : bool :=
  let n := nat_of_ascii c in
  (Nat.leb 9 n && Nat.leb n 13) || (Nat.leb 28 n && Nat.leb n 32).

Fixpoint drop_space (l : list ascii) : list ascii :=
  match l with
  | c :: l' => if is_space c then drop_space l' else l
  | [] => []
  end.

(** [s.strip()] *)
Definition strip (s : string) : string :=
  string_of_list_ascii
    (rev (drop_space (rev (drop_space (list_ascii_of_string s))))).

(** [str.isdigit] on one byte (ASCII digits; other Unicode digits are
    not modelled). *)
Definition is_digit (c : ascii) : bool :=
  let n := nat_of_ascii c in Nat.leb 48 n && Nat.leb n 57.

(** [''.join(filter(str.isdigit, s))] *)
Definition digits_of (s : string) : string :=
  string_of_list_ascii (filter is_digit (list_ascii_of_string s)).

Definition digit_val (c : ascii) : Z := Z.of_nat (nat_of_ascii c - 48).

Definition digits_value (l : list ascii) : Z :=
  fold_left (fun acc c => acc * 10 + digit_val c)%Z l 0%Z.

(** [int(s)] on a string: surrounding whitespace, an optional sign and a
    non-empty run of digits; [None] where Python raises [ValueError]
    (digit-group underscores are not modelled). *)
Definition py_int (s : string) : option Z :=
  let l := list_ascii_of_string (strip s) in
  let '(sgn, ds) :=
    match l with
    | "-"%char :: r => ((-1)%Z, r)
    | "+"%char :: r => (1%Z, r)
    | _ => (1%Z, l)
    end in
  if (negb (Nat.eqb (length ds) 0)) && forallb is_digit ds
  then Some (sgn * digits_value ds)%Z else None.

Fixpoint take_digits (l : list ascii) : list ascii :=
  match l with
  | c :: l' => if is_digit c then c :: take_digits l' else []
  | [] => []
  end.

(** [float(s)] on a string, for decimal notation ([26], [-3.5], [.5],
    [5.]); exponents, [inf] and [nan] are not modelled. *)
Definition py_float (s : string) : option Q :=
  let l := list_ascii_of_string (strip s) in
  let '(sgn, r) :=
    match l with
    | "-"%char :: r => ((-1)%Z, r)
    | "+"%char :: r => (1%Z, r)
    | _ => (1%Z, l)
    end in
  let before := take_digits r in
  let rest := skipn (length before) r in
  match rest with
  | [] => if Nat.eqb (length before) 0 then None
          else Some (inject_Z (sgn * digits_value before))
  | "."%char :: frac =>
      if forallb is_digit frac && negb (Nat.eqb (length before + length frac) 0)
      then Some (Qmake (sgn * (digits_value before * 10 ^ Z.of_nat (length frac)
                               + digits_value frac))
                       (Pos.of_nat (Nat.pow 10 (length frac))))
      else None
  | _ => None
  end.

End PyStr.

(* ------------------------------------------------------------------ *)
(** * data_processing.py: parse_weather_description *)

Module Desc.
Import PyStr.

(** Values stored in the result dict. *)
Inductive pyv : Type :=
| VStr (s : string)
| VFloat (q : Q)
| VInt (z : Z).

(** A Python dict as an association list in insertion order. *)
Definition dict := list (string * pyv).

Fixpoint dget (k : string) (d : dict) : option pyv :=
  match d with
  | [] => None
  | (k', v) :: d' => if String.eqb k k' then Some v else dget k d'
  end.

Definition dmem (k : string) (d : dict) : bool :=
  match dget k d with Some _ => true | None => false end.

(** [d[k] = v]: overwrite in place, or append a new key. *)
Fixpoint dset (k : string) (v : pyv) (d : dict) : dict :=
  match d with
  | [] => [(k, v)]
  | (k', v') :: d' => if String.eqb k k' then (k, v) :: d' else (k', v') :: dset k v d'
  end.

Definition PERIOD := "。".
Definition RAIN := "降雨機率".
Definition TEMP := "溫度攝氏".
Definition DEG := "度".
Definition TO := "至".
Definition WIND := "風".
Definition WINDSPEED := "風速".
Definition LEVEL := "級".
Definition HUMID := "相對濕度".

(** The temperature branch; both [ValueError]s (from the two-way unpack
    and from [float]) are caught inside it. *)
Definition temp_fields (part : string) (data : dict) : dict :=
  let temp_text := nth 0 (split DEG (nth 1 (split TEMP part) "")) "" in
  if contains TO temp_text then
    match split TO temp_text with
    | [mn; mx] =>
        match py_float (strip mn) with
        | None => data
        | Some x =>
            let d1 := dset "minTemp" (VFloat x) data in
            match py_float (strip mx) with
            | None => d1
            | Some y => dset "maxTemp" (VFloat y) d1
            end
        end
    | _ => data
    end
  else
    match py_float (strip temp_text) with
    | None => data
    | Some x => dset "Temp" (VFloat x) data
    end.

(** The wind branch. Its [except (ValueError, TypeError)] catches a
    failed [int]; an [IndexError] from [speed_range.split('-')[1]] is not
    caught there ([None]: the exception leaves the branch). *)
Definition wind_fields (part : string) (data : dict) : option dict :=
  let d1 :=
    match find WIND part with
    | Some k => if (0 <? k)%nat
                then dset "windDirection" (VStr (strip (substring 0 k part))) data
                else data
    | None => data
    end in
  if contains WINDSPEED part then
    let speed_text := nth 1 (split WINDSPEED part) "" in
    if contains "-" speed_text then
      let speed_range := strip (nth 0 (split LEVEL speed_text) "") in
      match nth_error (split "-" speed_range) 1 with
      | None => None
      | Some max_speed =>
          Some (match py_int max_speed with
                | Some z => dset "windSpeed" (VInt z) d1
                | None => d1
                end)
      end
    else
      let speed := digits_of (nth 0 (split LEVEL speed_text) "") in
      Some (if String.eqb speed "" then d1
            else match py_int speed with
                 | Some z => dset "windSpeed" (VInt z) d1
                 | None => d1
                 end)
  else Some d1.

Definition humidity_fields (part : string) (data : dict) : dict :=
  let humidity := strip (nth 1 (split HUMID part) "") in
  if contains TO humidity
  then dset "humidity" (VStr (strip (nth 1 (split TO humidity) ""))) data
  else dset "humidity" (VStr humidity) data.

(** One iteration of [for part in parts:]; [None] when an exception
    escapes to the outer [try]. *)
Definition parse_part (parts : list string) (data : dict) (part : string)
  : option dict :=
  if String.eqb part "" then Some data
  else if contains RAIN part then
    let d1 := dset "rainProb" (VStr (strip (nth 1 (split RAIN part) ""))) data in
    Some (if (3 <? length parts)%nat
          then dset "comfort" (VStr (strip (nth 3 parts ""))) d1 else d1)
  else if contains TEMP part then Some (temp_fields part data)
  else if contains WIND part && contains WINDSPEED part then wind_fields part data
  else if contains HUMID part then Some (humidity_fields part data)
  else Some data.

Fixpoint parse_parts (parts : list string) (data : dict) (ps : list string)
  : option dict :=
  match ps with
  | [] => Some data
  | p :: ps' =>
      match parse_part parts data p with
      | Some d => parse_parts parts d ps'
      | None => None
      end
  end.

(** The body of the outer [try]; [None] when it raises. *)
Definition parse_core (description : string) : option dict :=
  let parts := split PERIOD description in
  let d0 := match parts with
            | p0 :: _ => if String.eqb p0 "" then [] else [("weather", VStr (strip p0))]
            | [] => []
            end in
  match parse_parts parts d0 parts with
  | None => None
  | Some d =>
      Some (if negb (dmem "rainProb" d) && (2 <? length parts)%nat
            then dset "comfort" (VStr (strip (nth 2 parts ""))) d else d)
  end.

(** [parse_weather_description]: the outer [except Exception] returns
    [{}]. *)
Definition parse_weather_description (description : string) : dict :=
  match parse_core description with
  | Some d => d
  | None => []
  end.

(** Clauses that reach the wind branch of the [if/elif] chain. *)
Definition wind_branch (part : string) : bool :=
  negb (String.eqb part "") && negb (contains RAIN part) && negb (contains TEMP part)
  && contains WIND part && contains WINDSPEED part.

(** Wind direction read from a clause: the stripped text before the
    first '風', when that '風' is not the first character. *)
Definition wind_direction_of (part : string) : option string :=
  match find WIND part with
  | Some k => if (0 <? k)%nat then Some (strip (substring 0 k part)) else None
  | None => None
  end.

(** Wind speed read from a clause: with a '-' after the first '風速',
    [int] of the segment between the first two '-' of the stripped text
    before the first '級'; otherwise [int] of all the digit characters
    before the first '級' put together (none when there is no digit). *)
Definition wind_speed_of (part : string) : option Z :=
  if contains WINDSPEED part then
    let speed_text := nth 1 (split WINDSPEED part) "" in
    if contains "-" speed_text then
      match nth_error (split "-" (strip (nth 0 (split LEVEL speed_text) ""))) 1 with
      | Some m => py_int m
      | None => None
      end
    else
      let sp := digits_of (nth 0 (split LEVEL speed_text) "") in
      if String.eqb sp "" then None else py_int sp
  else None.

(** The keys [parse_weather_description] writes after the initial
    [weather] entry. *)
Definition field_keys : list string :=
  ["rainProb"; "comfort"; "minTemp"; "maxTemp"; "Temp"; "windDirection";
   "windSpeed"; "humidity"].

Definition description_keys : list string := "weather" :: field_keys.

Definition is_field_key (k : string) : bool := existsb (String.eqb k) field_keys.

(** A wind clause whose speed text holds a '-' while the stripped text
    before its first '級' holds none: [speed_range.split('-')[1]] raises
    [IndexError] there. *)
Definition wind_abort (part : string) : bool :=
  let speed_text := nth 1 (split WINDSPEED part) "" in
  wind_branch part && contains "-" speed_text
  && negb (contains "-" (strip (nth 0 (split LEVEL speed_text) ""))).

End Desc.

(* ------------------------------------------------------------------ *)
(** * data_processing.py: extract_radar_rainfall *)

Module Radar.
Open Scope Q_scope.

(** Python's [round(x, 2)] and NumPy's [np.round(x, 2)]: round half to
    even at the second decimal, on exact rationals. *)
Definition round_half_even (x : Q) : Z :=
  let f := Qfloor x in
  let r := x - inject_Z f in
  if Qle_bool (1 # 2) r
  then if Qeq_bool r (1 # 2)
       then (if Z.even f then f else f + 1)%Z
       else (f + 1)%Z
  else f.

Definition round2 (x : Q) : Q := inject_Z (round_half_even (x * 100)) / 100.

(** [v > -99.0] *)
Definition valid (v : Q) : bool := negb (Qle_bool v (-99)).

(** The radar payload. The grid content string is taken as the list of
    numbers it spells: [np.fromstring(s, sep=',')] and
    [[float(val) for val in s.split(',')]] read the same numbers from a
    well-formed content string. The float16 rounding of the NumPy path
    is not modelled (the concrete inputs below are exact in float16).
    [rp_content] is [None] when one of the keys [cwaopendata], [dataset],
    [contents], [content] is missing, [rp_params] when [datasetInfo] or
    [parameterSet] is missing. *)
Record radar_payload : Type := mkRadar {
  rp_content : option (list Q);
  rp_params : option (list (string * Q))
}.

(** [params.get(k, default)] *)
Fixpoint pget (k : string) (ps : list (string * Q)) (default : Q) : Q :=
  match ps with
  | [] => default
  | (k', v) :: ps' => if String.eqb k k' then v else pget k ps' default
  end.

(** [int(x)] on a number: truncation toward zero. *)
Definition py_int_of_Q (q : Q) : Z := Z.quot (Qnum q) (Zpos (Qden q)).

Definition FACTOR : Z := 4.

Definition zrange (n : Z) : list Z := map Z.of_nat (seq 0 (Z.to_nat n)).

(** Output cells in the row-major order of [flatten()] and of
    [new_idx = y * new_dim_x + x]. *)
Definition blocks (new_dim_x new_dim_y : Z) : list (Z * Z) :=
  flat_map (fun y => map (fun x => (x, y)) (zrange new_dim_x)) (zrange new_dim_y).

Definition offsets : list (Z * Z) :=
  flat_map (fun yo => map (fun xo => (xo, yo)) (zrange FACTOR)) (zrange FACTOR).

Definition Qsum (l : list Q) : Q := fold_right Qplus 0 l.

(** NumPy path: invalid cells set to [0.0], crop, then
    [reshape(new_dim_y, F, new_dim_x, F).mean(axis=(1, 3))]. *)
Definition vectorized (data : list Q) (grid_dim_x new_dim_x new_dim_y : Z) : list Q :=
  let cleaned := map (fun v => if Qle_bool v (-99) then 0 else v) data in
  map (fun '(x, y) =>
         round2 (Qsum (map (fun '(xo, yo) =>
                         nth (Z.to_nat ((y * FACTOR + yo) * grid_dim_x + (x * FACTOR + xo)))
                             cleaned 0) offsets) / inject_Z (FACTOR * FACTOR)))
      (blocks new_dim_x new_dim_y).

(** [reshape(grid_dim_y, grid_dim_x)] succeeds (non-negative dimensions
    are assumed to be the ones the API sends). *)
Definition reshape_ok (data : list Q) (grid_dim_x grid_dim_y : Z) : bool :=
  (0 <=? grid_dim_x)%Z && (0 <=? grid_dim_y)%Z
  && (Z.of_nat (length data) =? grid_dim_x * grid_dim_y)%Z.

Fixpoint concat_mapM {A} (f : A -> exn + list Q) (l : list A) : exn + list Q :=
  match l with
  | [] => inr []
  | a :: l' =>
      match f a with
      | inl e => inl e
      | inr vs => match concat_mapM f l' with
                  | inl e => inl e
                  | inr ws => inr (app vs ws)
                  end
      end
  end.

Fixpoint mapM {A B} (f : A -> exn + B) (l : list A) : exn + list B :=
  match l with
  | [] => inr []
  | a :: l' =>
      match f a with
      | inl e => inl e
      | inr b => match mapM f l' with inl e => inl e | inr bs => inr (b :: bs) end
      end
  end.

(** [grid_values] of one output cell in the scalar loop;
    [original_data[original_idx]] raises [IndexError] past the end. *)
Definition grid_values (data : list Q) (grid_dim_x grid_dim_y x y : Z) : exn + list Q :=
  concat_mapM (fun '(xo, yo) =>
    let ox := (x * FACTOR + xo)%Z in
    let oy := (y * FACTOR + yo)%Z in
    if (ox <? grid_dim_x)%Z && (oy <? grid_dim_y)%Z then
      match nth_error data (Z.to_nat (oy * grid_dim_x + ox)) with
      | None => inl IndexError
      | Some v => inr (if valid v then [v] else [])
      end
    else inr []) offsets.

(** [sum(grid_values) / len(grid_values) if grid_values else 0.0] *)
Definition block_avg (vs : list Q) : Q :=
  match vs with
  | [] => 0
  | _ => Qsum vs / inject_Z (Z.of_nat (length vs))
  end.

(** Scalar fallback: [aggregated_rainfall = [0.0] * (new_dim_x * new_dim_y)]
    then every cell of the two [range] loops is overwritten. *)
Definition scalar (data : list Q) (grid_dim_x grid_dim_y new_dim_x new_dim_y : Z)
  : exn + list Q :=
  if (0 <? new_dim_x)%Z && (0 <? new_dim_y)%Z then
    mapM (fun '(x, y) =>
            match grid_values data grid_dim_x grid_dim_y x y with
            | inl e => inl e
            | inr vs => inr (round2 (block_avg vs))
            end) (blocks new_dim_x new_dim_y)
  else inr (repeat 0 (Z.to_nat (new_dim_x * new_dim_y))).

(** The output dict; the [timestamp] field, read from the clock, is
    left out. *)
Record radar_meta : Type := mkMeta {
  start_lon : Q; start_lat : Q; res_lon : Q; res_lat : Q;
  dim_x : Z; dim_y : Z
}.

Record radar_out : Type := mkRadarOut {
  metadata : radar_meta;
  rainfall_grid : list Q
}.

Definition D_START_LON : Q := 118.
Definition D_START_LAT : Q := 20.
Definition D_RES : Q := 1 # 80.        (* 0.0125 *)
Definition D_DIM_X : Q := 441.
Definition D_DIM_Y : Q := 561.

Definition extract_radar_rainfall (p : radar_payload) : exn + radar_out :=
  match rp_content p with
  | None => inl KeyError
  | Some data =>
  match rp_params p with
  | None => inl KeyError
  | Some params =>
      let start_lon := pget "StartPointLongitude" params D_START_LON in
      let start_lat := pget "StartPointLatitude" params D_START_LAT in
      let res_lon := pget "GridResolution" params D_RES in
      let res_lat := res_lon in
      let grid_dim_x := py_int_of_Q (pget "GridDimensionX" params D_DIM_X) in
      let grid_dim_y := py_int_of_Q (pget "GridDimensionY" params D_DIM_Y) in
      let new_dim_x := (grid_dim_x / FACTOR)%Z in
      let new_dim_y := (grid_dim_y / FACTOR)%Z in
      let grid :=
        if reshape_ok data grid_dim_x grid_dim_y
        then inr (vectorized data grid_dim_x new_dim_x new_dim_y)
        else scalar data grid_dim_x grid_dim_y new_dim_x new_dim_y in
      match grid with
      | inl e => inl e
      | inr g =>
          inr (mkRadarOut
                 (mkMeta start_lon start_lat (res_lon * inject_Z FACTOR)
                         (res_lat * inject_Z FACTOR) new_dim_x new_dim_y) g)
      end
  end
  end.

(** The [params.get] keys of [extract_radar_rainfall] with their
    default values. *)
Definition grid_param_defaults : list (string * Q) :=
  [("StartPointLongitude", D_START_LON); ("StartPointLatitude", D_START_LAT);
   ("GridResolution", D_RES); ("GridDimensionX", D_DIM_X);
   ("GridDimensionY", D_DIM_Y)].

(** The block-average definition of the reference behaviour, read
    directly on a well-formed grid: mean of the cells above [-99.0],
    [0.0] for a block without such a cell, rounded to 2 decimals. *)
Definition spec_block_mean (data : list Q) (grid_dim_x : Z) (x y : Z) : Q :=
  let cells := map (fun '(xo, yo) =>
                 nth (Z.to_nat ((y * FACTOR + yo) * grid_dim_x + (x * FACTOR + xo))) data 0)
                 offsets in
  round2 (block_avg (filter valid cells)).

End Radar.

(* ------------------------------------------------------------------ *)
(** * data_processing.py: extract_observation_data and extract_uv_data *)

Module Stations.
Import PyStr.

(** An entry of [station['GeoInfo']['Coordinates']]; [None] fields are
    absent keys. *)
Record coord : Type := mkCoord {
  c_name : option string;
  c_lat : option Q;
  c_lon : option Q
}.

(** A station of [raw_data['records']['Station']].
    [s_geo] is [None] when [GeoInfo] or its [Coordinates] is absent;
    [s_we] is the [WeatherElement] mapping (its observation fields are
    read with [.get] and never raise); [s_obstime] is [None] when
    [ObsTime] or [DateTime] is absent, [Some None] when
    [datetime.fromisoformat] raises, [Some (Some t)] for timestamp [t]. *)
Record station : Type := mkStation {
  s_geo : option (list coord);
  s_id : option string;
  s_name : option string;
  s_we : option (list (string * string));
  s_obstime : option (option Z)
}.

Definition req {T} (o : option T) : exn + T :=
  match o with Some v => inr v | None => inl KeyError end.

(** [next((c for c in coords if c['CoordinateName'] == 'WGS84'), None)] *)
Fixpoint find_wgs84 (cs : list coord) : exn + option coord :=
  match cs with
  | [] => inr None
  | c :: cs' =>
      match c_name c with
      | None => inl KeyError
      | Some n => if String.eqb n "WGS84" then inr (Some c) else find_wgs84 cs'
      end
  end.

Definition timestamp_of (o : option (option Z)) : exn + Z :=
  match o with
  | None => inl KeyError
  | Some None => inl ValueError
  | Some (Some t) => inr t
  end.

Record obs_record : Type := mkObsRecord {
  or_stationId : string;
  or_stationName : string;
  or_latitude : Q;
  or_longitude : Q;
  or_timestamp : Z;
  or_observations : list (string * string)
}.

Notation "x <- m ;; k" :=
  (match m with inl e => inl e | inr x => k end)
  (at level 61, m at next level, right associativity).

(** The body of [for station in stations:] of
    [extract_observation_data]: [inr None] for [continue]. *)
Definition obs_station (st : station) : exn + option obs_record :=
  cs <- req (s_geo st) ;;
  co <- find_wgs84 cs ;;
  match co with
  | None => inr None
  | Some c =>
      we <- req (s_we st) ;;
      sid <- req (s_id st) ;;
      sname <- req (s_name st) ;;
      lat <- req (c_lat c) ;;
      lon <- req (c_lon c) ;;
      ts <- timestamp_of (s_obstime st) ;;
      inr (Some (mkObsRecord sid sname lat lon ts we))
  end.

(** [extract_observation_data]: the outer [except Exception] logs and
    re-raises. *)
Fixpoint extract_observation_data (stations : list station) : exn + list obs_record :=
  match stations with
  | [] => inr []
  | st :: sts =>
      r <- obs_station st ;;
      rest <- extract_observation_data sts ;;
      inr (match r with Some x => x :: rest | None => rest end)
  end.

Fixpoint sget (k : string) (m : list (string * string)) (default : string) : string :=
  match m with
  | [] => default
  | (k', v) :: m' => if String.eqb k k' then v else sget k m' default
  end.

Record uv_record : Type := mkUvRecord {
  uv_stationId : string;
  uv_stationName : string;
  uv_latitude : Q;
  uv_longitude : Q;
  uv_uvIndex : Z;
  uv_timestamp : Z
}.

(** [int(...)]: [ValueError] on a non-integer string. *)
Definition req_int (s : string) : exn + Z :=
  match py_int s with Some z => inr z | None => inl ValueError end.

(** The body of [for station in stations:] of [extract_uv_data]. *)
Definition uv_station (st : station) : exn + option uv_record :=
  cs <- req (s_geo st) ;;
  co <- find_wgs84 cs ;;
  match co with
  | None => inr None
  | Some c =>
      we <- req (s_we st) ;;
      uv <- req_int (sget "UVIndex" we "-99") ;;
      if (uv =? -99)%Z then inr None
      else
        sid <- req (s_id st) ;;
        sname <- req (s_name st) ;;
        lat <- req (c_lat c) ;;
        lon <- req (c_lon c) ;;
        ts <- timestamp_of (s_obstime st) ;;
        inr (Some (mkUvRecord sid sname lat lon uv ts))
  end.

Fixpoint extract_uv_data (stations : list station) : exn + list uv_record :=
  match stations with
  | [] => inr []
  | st :: sts =>
      r <- uv_station st ;;
      rest <- extract_uv_data sts ;;
      inr (match r with Some x => x :: rest | None => rest end)
  end.

End Stations.

(* ------------------------------------------------------------------ *)
(** * data_processing.py: extract_air_quality_data *)

Module AirQuality.

(** Numbers of the output dicts: a Python [int] or [float]. *)
Inductive num : Type :=
| NInt (z : Z)
| NFloat (q : Q).

(** A station of [raw_data['records']]; every field is read with
    [station.get], [None] standing for an absent key or a JSON null.
    The API sends the values as strings. *)
Record aq_station : Type := mkAqStation {
  a_siteid : option string;
  a_sitename : option string;
  a_county : option string;
  a_status : option string;
  a_aqi : option string;
  a_so2 : option string;
  a_co : option string;
  a_o3 : option string;
  a_o3_8hr : option string;
  a_pm10 : option string;
  a_pm2_5 : option string;
  a_no2 : option string;
  a_latitude : option string;
  a_longitude : option string;
  a_publishtime : option string
}.

(** [station_data['measurements']] *)
Record aq_meas : Type := mkAqMeas {
  m_aqi : num;
  m_status : option string;
  m_so2 : num;
  m_co : num;
  m_o3 : num;
  m_o3_8hr : num;
  m_pm10 : num;
  m_pm2_5 : num;
  m_no2 : num
}.

(** [station_data] *)
Record aq_record : Type := mkAqRecord {
  r_stationId : option string;
  r_stationName : option string;
  r_county : option string;
  r_latitude : num;
  r_longitude : num;
  r_measurements : aq_meas;
  r_publishTime : option string;
  r_timestamp : Q
}.

Section Extract.

(** [int(s)] and [float(s)] on a string ([None] where they raise
    [ValueError]), and
    [datetime.strptime(s, '%Y/%m/%d %H:%M:%S').timestamp()] ([None]
    where it raises; the value depends on the local time zone). *)
Variable int_cast : string -> option Z.
Variable float_cast : string -> option Q.
Variable strptime_timestamp : string -> option Q.

(** [_safe_cast(value, cast_type, default)]; [cast] is [None] where
    [cast_type(value)] raises [ValueError]. *)
Definition safe_cast (cast : string -> option num) (value : option string) (default : num)
  : num :=
  match value with
  | None => default
  | Some s =>
      if String.eqb s "" || String.eqb s "--" then default
      else match cast s with Some v => v | None => default end
  end.

Definition as_int (s : string) : option num := option_map NInt (int_cast s).
Definition as_float (s : string) : option num := option_map NFloat (float_cast s).

(** The body of [for station in stations:]. [strptime(None, ...)]
    raises [TypeError], written [GenericError] here. *)
Definition aq_station_data (st : aq_station) : exn + aq_record :=
  let aqi := safe_cast as_int (a_aqi st) (NInt (-99)) in
  let so2 := safe_cast as_float (a_so2 st) (NInt (-99)) in
  let co := safe_cast as_float (a_co st) (NInt (-99)) in
  let o3 := safe_cast as_float (a_o3 st) (NInt (-99)) in
  let o3_8hr := safe_cast as_float (a_o3_8hr st) (NInt (-99)) in
  let pm10 := safe_cast as_float (a_pm10 st) (NInt (-99)) in
  let pm2_5 := safe_cast as_float (a_pm2_5 st) (NInt (-99)) in
  let no2 := safe_cast as_float (a_no2 st) (NInt (-99)) in
  let latitude := safe_cast as_float (a_latitude st) (NInt 0) in
  let longitude := safe_cast as_float (a_longitude st) (NInt 0) in
  match a_publishtime st with
  | None => inl GenericError
  | Some p =>
      match strptime_timestamp p with
      | None => inl ValueError
      | Some ts =>
          inr (mkAqRecord (a_siteid st) (a_sitename st) (a_county st) latitude longitude
                 (mkAqMeas aqi (a_status st) so2 co o3 o3_8hr pm10 pm2_5 no2)
                 (a_publishtime st) ts)
      end
  end.

(** [extract_air_quality_data]: [raw_data] is [None] when it is falsy
    ([None] or [{}]), otherwise [Some] of [raw_data.get('records', [])].
    The outer [except Exception] logs and re-raises. *)
Definition extract_air_quality_data (raw_data : option (list aq_station))
  : exn + list aq_record :=
  match raw_data with
  | None => inr []
  | Some stations => Radar.mapM aq_station_data stations
  end.

End Extract.

End AirQuality.

(* ------------------------------------------------------------------ *)
(** * data_processing.py: extract_three_hour_forecast and
      extract_weekly_forecast *)

Module Forecast.
Import PyStr Desc Stations.

(** [.get(k)] on an [ElementValue] entry. *)
Fixpoint lookup (k : string) (m : list (string * string)) : option string :=
  match m with
  | [] => None
  | (k', v) :: m' => if String.eqb k k' then Some v else lookup k m'
  end.

(** An entry of an element's [Time] list; [None] is an absent key.
    [tp_ElementValue] is the [ElementValue] list of mappings. *)
Record time_period : Type := mkTP {
  tp_StartTime : option string;
  tp_EndTime : option string;
  tp_DataTime : option string;
  tp_ElementValue : option (list (list (string * string)))
}.

(** An entry of [town['WeatherElement']]; [el_Time] is
    [element.get('Time', [])]. *)
Record element : Type := mkElement {
  el_ElementName : option string;
  el_Time : list time_period
}.

(** A town of [location.get('Location', [])]; [t_WeatherElement] is
    [town.get('WeatherElement', [])]. *)
Record town : Type := mkTown {
  t_LocationName : option string;
  t_Geocode : option string;
  t_Latitude : option string;
  t_Longitude : option string;
  t_WeatherElement : list element
}.

(** An entry of [raw_data.get('records', {}).get('locations', [])]. *)
Record location : Type := mkLocation {
  l_LocationsName : option string;
  l_Location : list town
}.

(** A forecast dict; a [None] value is Python's [None]. *)
Definition fdict := list (string * option pyv).

(** [m[k] = v] on a dict: a present key keeps its position. *)
Fixpoint fset {V : Type} (k : string) (v : V) (m : list (string * V)) : list (string * V) :=
  match m with
  | [] => [(k, v)]
  | (k', v') :: m' => if String.eqb k k' then (k, v) :: m' else (k', v') :: fset k v m'
  end.

Fixpoint fget {V : Type} (k : string) (m : list (string * V)) : option V :=
  match m with
  | [] => None
  | (k', v) :: m' => if String.eqb k k' then Some v else fget k m'
  end.

(** [town_data] *)
Record town_out : Type := mkTownOut {
  o_countyName : option string;
  o_townName : option string;
  o_geocode : option string;
  o_latitude : Q;
  o_longitude : Q;
  o_forecasts : list fdict
}.

Fixpoint foldM {A B : Type} (f : B -> A -> exn + B) (b : B) (l : list A) : exn + B :=
  match l with
  | [] => inr b
  | a :: l' => match f b a with inl e => inl e | inr b' => foldM f b' l' end
  end.

Definition DESC := "天氣預報綜合描述".
Definition APPARENT := "體感溫度".
Definition MAX_APPARENT := "最高體感溫度".
Definition MIN_APPARENT := "最低體感溫度".

(** [element.get('ElementName') == name] *)
Definition name_is (name : string) (el : element) : bool :=
  match el_ElementName el with Some n => String.eqb n name | None => false end.

Section Extract.

(** [datetime.datetime.fromisoformat(s).timestamp()] ([None] where it
    raises; the value depends on the local time zone). *)
Variable iso_timestamp : string -> option Q.

(** [s.replace(old, new)] for a non-empty [old]. *)
Definition py_replace (old new s : string) : string := String.concat new (split old s).

(** [float(town.get(k, 0))] *)
Definition float_or_zero (v : option string) : exn + Q :=
  match v with
  | None => inr 0%Q
  | Some s => match py_float s with Some q => inr q | None => inl ValueError end
  end.

(** [forecast.update(weather_info)] *)
Definition update (f : fdict) (w : dict) : fdict :=
  fold_left (fun acc '(k, v) => fset k (Some v) acc) w f.

(** One period of the '天氣預報綜合描述' element: its [start_time] and
    its forecast dict. [None.replace] raises [AttributeError]
    ([GenericError]); an empty [ElementValue] list raises [IndexError];
    an absent one defaults to [[{}]]. *)
Definition desc_entry (tp : time_period) : exn + (string * fdict) :=
  match tp_StartTime tp with
  | None => inl GenericError
  | Some start_time =>
      match iso_timestamp (py_replace "+08:00" "" start_time) with
      | None => inl ValueError
      | Some ts =>
          let forecast := [("startTime", Some (VStr start_time));
                           ("endTime", option_map VStr (tp_EndTime tp));
                           ("timestamp", Some (VFloat ts))] in
          let values := match tp_ElementValue tp with None => [[]] | Some l => l end in
          match values with
          | [] => inl IndexError
          | e0 :: _ =>
              let description :=
                match lookup "WeatherDescription" e0 with Some d => d | None => "" end in
              inr (start_time, update forecast (parse_weather_description description))
          end
      end
  end.

(** The first loop over [town['WeatherElement']]: [time_map[start_time] = forecast]. *)
Definition desc_pass (tm : list (string * fdict)) (els : list element)
  : exn + list (string * fdict) :=
  foldM (fun tm el =>
           if name_is DESC el then
             foldM (fun tm tp => p <- desc_entry tp ;; inr (fset (fst p) (snd p) tm))
                   tm (el_Time el)
           else inr tm) tm els.

(** One period of a temperature element: [key] reads the period's time
    ([DataTime] or [StartTime]), [src] the field of [ElementValue[0]],
    [dst] is the forecast key written. The forecast dict is updated in
    place ([time_map] holds the only reference to it). *)
Definition value_period (key : time_period -> option string) (src dst : string)
  (tm : list (string * fdict)) (tp : time_period) : exn + list (string * fdict) :=
  let value := match tp_ElementValue tp with
               | Some (e0 :: _) => lookup src e0
               | _ => None
               end in
  match key tp with
  | None => inr tm
  | Some t =>
      match fget t tm with
      | None => inr tm
      | Some f =>
          match value with
          | None => inr (fset t (fset dst None f) tm)
          | Some v =>
              match py_float v with
              | Some q => inr (fset t (fset dst (Some (VFloat q)) f) tm)
              | None => inl ValueError
              end
          end
      end
  end.

Definition value_pass (name : string) (key : time_period -> option string) (src dst : string)
  (tm : list (string * fdict)) (els : list element) : exn + list (string * fdict) :=
  foldM (fun tm el =>
           if name_is name el then foldM (value_period key src dst) tm (el_Time el)
           else inr tm) tm els.

(** The body of [for town in location.get('Location', []):] of
    [extract_three_hour_forecast]. *)
Definition town_three_hour (county_name : option string) (t : town) : exn + town_out :=
  lat <- float_or_zero (t_Latitude t) ;;
  lon <- float_or_zero (t_Longitude t) ;;
  tm <- desc_pass [] (t_WeatherElement t) ;;
  tm <- value_pass APPARENT tp_DataTime "ApparentTemperature" "apparent_temperature"
                   tm (t_WeatherElement t) ;;
  inr (mkTownOut county_name (t_LocationName t) (t_Geocode t) lat lon (map snd tm)).

(** The same body in [extract_weekly_forecast]. *)
Definition town_weekly (county_name : option string) (t : town) : exn + town_out :=
  lat <- float_or_zero (t_Latitude t) ;;
  lon <- float_or_zero (t_Longitude t) ;;
  tm <- desc_pass [] (t_WeatherElement t) ;;
  tm <- value_pass MAX_APPARENT tp_StartTime "MaxApparentTemperature"
                   "max_apparent_temperature" tm (t_WeatherElement t) ;;
  tm <- value_pass MIN_APPARENT tp_StartTime "MinApparentTemperature"
                   "min_apparent_temperature" tm (t_WeatherElement t) ;;
  inr (mkTownOut county_name (t_LocationName t) (t_Geocode t) lat lon (map snd tm)).

(** [extract_three_hour_forecast]: [if not locations: return []], then
    the two nested loops; the outer handler re-raises. *)
Definition extract_three_hour_forecast (locations : list location) : exn + list town_out :=
  match locations with
  | [] => inr []
  | _ =>
      out <- Radar.mapM (fun l => Radar.mapM (town_three_hour (l_LocationsName l)) (l_Location l))
                        locations ;;
      inr (concat out)
  end.

Definition extract_weekly_forecast (locations : list location) : exn + list town_out :=
  out <- Radar.mapM (fun l => Radar.mapM (town_weekly (l_LocationsName l)) (l_Location l))
                    locations ;;
  inr (concat out).

End Extract.

(** The [StartTime] of every period of the '天氣預報綜合描述' elements of
    a town, in the order of the loops. *)
Definition desc_starts (t : town) : list string :=
  flat_map (fun el =>
              if name_is DESC el
              then flat_map (fun tp => match tp_StartTime tp with Some s => [s] | None => [] end)
                            (el_Time el)
              else []) (t_WeatherElement t).

(** First occurrences, in order. *)
Definition nodup_first (l : list string) : list string :=
  fold_left (fun acc x => if existsb (String.eqb x) acc then acc else app acc [x]) l [].

End Forecast.

(* ------------------------------------------------------------------ *)
(** * models.py: UVIndexData and AirQualityData, the client cache and
      the preloader; the update tasks of main.py *)

Module Models.
Import Batch.


(** [int(data['uvIndex'])] *)
Definition need_int (o : option (option Z)) : option exn :=
  match o with
  | None => Some KeyError
  | Some None => Some ValueError
  | Some (Some _) => None
  end.

















(** ** Cached clients *)

Section Cache.

(** The client objects are opaque. *)
Variable client : Type.

(** [get_firestore_client()]: [cache] is the module global [_db_client]
    and [create] what [firestore.client()] returns ([inr]) or raises
    ([inl]) if it is called. Returns the result and the new cache. *)
Definition get_firestore_client (cache : option client) (create : exn + client)
  : (exn + client) * option client :=
  match cache with
  | Some c => (inr c, Some c)
  | None =>
      match create with
      | inl e => (inl e, None)
      | inr c => (inr c, Some c)
      end
  end.

(** [all([...])] on environment values: unset or empty is falsy. *)
Definition truthy (v : option string) : bool :=
  match v with Some s => negb (String.eqb s "") | None => false end.

(** [get_r2_client()] with the three [os.getenv] values
    ([R2_ACCESS_KEY_ID], [R2_SECRET_ACCESS_KEY], [R2_ENDPOINT_URL]) and
    the outcome of [boto3.client(...)]. *)
Definition get_r2_client (cache : option client)
  (access_key secret_key endpoint_url : option string) (create : exn + client)
  : (exn + client) * option client :=
  match cache with
  | Some c => (inr c, Some c)
  | None =>
      if truthy access_key && truthy secret_key && truthy endpoint_url then
        match create with
        | inl e => (inl e, None)
        | inr c => (inr c, Some c)
        end
      else (inl ValueError, None)
  end.

(** Successive calls of [get_firestore_client()] from one process, the
    [i]-th of which would get [creates[i]] from [firestore.client()]. *)
Fixpoint firestore_calls (cache : option client) (creates : list (exn + client))
  : list (exn + client) :=
  match creates with
  | [] => []
  | cr :: crs =>
      let '(r, cache') := get_firestore_client cache cr in r :: firestore_calls cache' crs
  end.

End Cache.

(** ** ClientPreloader *)

(** Tasks passed to [self.executor.submit]. *)
Inductive task : Type :=
| PreloadFirestore
| PreloadR2.

Record preloader : Type := mkPreloader {
  firestore_started : bool;     (* _firestore_preloading_started *)
  r2_started : bool;            (* _r2_preloading_started *)
  submitted : list task         (* executor.submit calls, in order *)
}.

(** [ClientPreloader()] *)
Definition new_preloader : preloader := mkPreloader false false [].

Definition start_firestore_preloading (p : preloader) : preloader :=
  if firestore_started p then p
  else mkPreloader true (r2_started p) (app (submitted p) [PreloadFirestore]).

Definition start_r2_preloading (p : preloader) : preloader :=
  if r2_started p then p
  else mkPreloader (firestore_started p) true (app (submitted p) [PreloadR2]).

Definition start_preloading (p : preloader) : preloader :=
  start_r2_preloading (start_firestore_preloading p).

(** Calls made on the global [_client_preloader] by the update tasks. *)
Inductive start_call : Type :=
| CallFirestore      (* start_firestore_preloading() *)
| CallR2             (* start_r2_preloading() *)
| CallBoth.          (* start_client_preloading() *)

Definition run_start (p : preloader) (c : start_call) : preloader :=
  match c with
  | CallFirestore => start_firestore_preloading p
  | CallR2 => start_r2_preloading p
  | CallBoth => start_preloading p
  end.

Definition run_starts (cs : list start_call) : preloader :=
  fold_left run_start cs new_preloader.

End Models.

(* ================================================================== *)
(** * Properties *)

(** ** batch_save *)

Section BatchProps.
Import Batch.

Variable A : Type.
Variable build : A -> option exn.
Variable ident : A -> option string * option string.

(** A run of well-formed items whose [batch.set] calls all return and
    that stays below [batch_size] only bumps [count] and
    [success_count]. *)
Lemma save_loop_clean_prefix :
  forall (pre post : list A) bs st c rest,
    Forall (fun x => build x = None) pre ->
    (Z.of_nat (c + length pre) < bs)%Z ->
    save_loop A build ident bs (mkLS st c false (repeat None (length pre) ++ rest)) (pre ++ post)
    = save_loop A build ident bs
        (mkLS (mkStats (total_attempts st) (success_count st + length pre)
                       (failed_count st) (failed_items st))
              (c + length pre) false rest) post.
Proof.
  induction pre as [|x pre IH]; intros post bs st c rest Hb Hlt.
  - destruct st; simpl. rewrite Nat.add_0_r, Nat.add_0_r. reflexivity.
  - inversion Hb as [|? ? Hx Hpre]; subst. simpl.
    unfold save_item; simpl. rewrite Hx. simpl length in Hlt.
    assert (Hc : (bs <=? Z.of_nat (S c))%Z = false) by (apply Z.leb_gt; lia).
    simpl in Hc; rewrite Hc.
    rewrite (IH post bs (add_success st) (S c) rest Hpre) by (simpl; lia).
    destruct st; unfold add_success; simpl.
    do 2 f_equal; [f_equal; lia | lia].
Qed.

End BatchProps.

(** ** extract_radar_rainfall *)

Section RadarProps.
Import Radar.

Lemma pget_notin : forall k ps d, ~ In k (map fst ps) -> pget k ps d = d.
Proof.
  induction ps as [|[k' v] ps IH]; intros d Hn; simpl in *; [reflexivity|].
  destruct (String.eqb_spec k k') as [->|Hne].
  - exfalso; apply Hn; left; reflexivity.
  - apply IH; intros H; apply Hn; right; exact H.
Qed.

End RadarProps.

(** ** Claims on batch_save *)

Module BatchClaims.
Import Batch.

(** C1 (evaluated): in [ObservationData.batch_save], when items
    [1..k-1] are well formed and written, and [batch.set] of item [k]
    raises [ResourceExhausted], the call raises at item [k] with
    [success_count = k-1] and [failed_count = 1]: the loop is left by the
    [raise] of the quota handler, items [k+1..N] are never visited and
    nothing is recorded for them, whatever [N] is. *)
Theorem quota_error_leaves_loop_at_item_k :
  forall (pre post : list obs_input) (d : obs_input) (bs : Z) (rest : store),
    Forall (fun x => obs_build x = None) pre ->
    obs_build d = None ->
    (Z.of_nat (length pre) < bs)%Z ->
    ObservationData_batch_save (pre ++ d :: post) bs
      (repeat None (length pre) ++ Some ResourceExhausted :: rest)
    = inl (ResourceExhausted,
           mkStats (length pre + S (length post)) (length pre) 1
                   [(oi_stationId d, oi_stationName d, Raised ResourceExhausted)]).
Proof.
  intros pre post d bs rest Hpre Hd Hlt.
  unfold ObservationData_batch_save, batch_save.
  rewrite length_app; simpl length.
  rewrite (save_loop_clean_prefix obs_input obs_build obs_ident pre (d :: post) bs
             (mkStats (length pre + S (length post)) 0 0 []) 0
             (Some ResourceExhausted :: rest) Hpre) by (simpl; lia).
  simpl. unfold save_item; simpl. rewrite Hd. reflexivity.
Qed.

Lemma quota_error_leaves_loop_at_item_k_witness :
  ObservationData_batch_save [obs_ok "1"; obs_ok "2"; obs_ok "3"] 500
    [None; Some ResourceExhausted]
  = inl (ResourceExhausted,
         mkStats 3 1 1 [(Some "2", Some "st2", Raised ResourceExhausted)]).
Proof.
  exact (quota_error_leaves_loop_at_item_k [obs_ok "1"] [obs_ok "3"] (obs_ok "2") 500 []
           ltac:(repeat constructor) eq_refl ltac:(simpl; lia)).
Defined.

(** C9 (evaluated): two well-formed items, [batch_size = 1]; the commit
    after item 1 raises an ordinary error, the commit after item 2
    succeeds. Item 1 is counted both in [success_count] (incremented
    before the commit) and in [failed_count], so the returned stats have
    [success_count + failed_count = 3 > 2 = total_attempts]. *)
Theorem commit_failure_double_counts :
  ObservationData_batch_save [obs_ok "1"; obs_ok "2"] 1
    [None; Some GenericError; None; None]
  = inr (mkStats 2 2 1 [(Some "1", Some "st1", Raised GenericError)])
  /\ (2 + 1 > 2)%nat.
Proof. split; [reflexivity | lia]. Qed.

End BatchClaims.

(** ** Claims on extract_radar_rainfall *)

Module RadarClaims.
Import Radar.

(** A 4x4 grid: fifteen cells of 4.0 and one invalid cell (-99). *)
Definition grid44 : list Q := app (repeat 4%Q 15) [(-99)%Q].

Definition payload44 : radar_payload :=
  mkRadar (Some grid44) (Some [("GridDimensionX", 4%Q); ("GridDimensionY", 4%Q)]).

(** C2 (evaluated): on a well-formed 4x4 grid the NumPy path, which is
    the one taken, zeroes the invalid cell and divides by 16 (3.75),
    while the scalar loop excludes it from the divisor (4.00). *)
Theorem vectorized_differs_from_scalar :
  reshape_ok grid44 4 4 = true
  /\ vectorized grid44 4 1 1 = [375 # 100]
  /\ scalar grid44 4 4 1 1 = inr [400 # 100]
  /\ ~ (375 # 100 == 400 # 100)%Q.
Proof.
  split; [reflexivity|]. split; [vm_compute; reflexivity|].
  split; [vm_compute; reflexivity|]. discriminate.
Qed.

(** C3 (evaluated): for the same 4x4 grid, [extract_radar_rainfall]
    returns one cell (length [(4/4)*(4/4)]) equal to 3.75, while the mean
    of the valid cells of the block, rounded to 2 decimals, is 4.00. *)
Theorem returned_cell_is_not_valid_mean :
  (exists m, extract_radar_rainfall payload44 = inr (mkRadarOut m [375 # 100]))
  /\ spec_block_mean grid44 4 0 0 = 400 # 100
  /\ ~ (375 # 100 == 400 # 100)%Q.
Proof.
  split; [eexists; vm_compute; reflexivity|].
  split; [vm_compute; reflexivity | discriminate].
Qed.

End RadarClaims.

Module RadarParamClaims.
Import Radar.

(** C6 (amended): a grid parameter missing from [parameterSet] is not a
    structural error: [extract_radar_rainfall] behaves exactly as if the
    key were present with its default value (118.0, 20.0, 0.0125, 441,
    561). Only a missing payload key on the [content] or
    [parameterSet] path raises [KeyError], with no output. *)
Theorem missing_grid_param_uses_default :
  forall (data : list Q) (ps : list (string * Q)) (k : string) (dk : Q),
    In (k, dk) grid_param_defaults ->
    ~ In k (map fst ps) ->
    extract_radar_rainfall (mkRadar (Some data) (Some ps))
    = extract_radar_rainfall (mkRadar (Some data) (Some ((k, dk) :: ps)))
  /\ (forall p, rp_content p = None \/ rp_params p = None ->
                extract_radar_rainfall p = inl KeyError).
Proof.
  intros data ps k dk Hin Hn. split.
  - unfold grid_param_defaults in Hin.
    repeat (destruct Hin as [Hin|Hin]; [injection Hin as <- <-|]);
      [..|destruct Hin];
      unfold extract_radar_rainfall; cbn [rp_content rp_params pget String.eqb];
      rewrite (pget_notin _ ps _ Hn); reflexivity.
  - intros [c pr] H; simpl in H; unfold extract_radar_rainfall; simpl;
      destruct H as [-> | ->]; [reflexivity|]. destruct c; reflexivity.
Qed.

Lemma missing_grid_param_uses_default_witness :
  extract_radar_rainfall (mkRadar (Some []) (Some [("GridDimensionX", 0%Q)]))
  = extract_radar_rainfall (mkRadar (Some []) (Some [("StartPointLongitude", 118%Q);
                                                     ("GridDimensionX", 0%Q)])).
Proof.
  apply (missing_grid_param_uses_default [] [("GridDimensionX", 0%Q)]
           "StartPointLongitude" D_START_LON).
  - simpl; left; reflexivity.
  - simpl; intros [H|H]; [discriminate | exact H].
Defined.

(** Concrete run behind C6: a 4x4 payload without [StartPointLongitude]
    returns an output whose origin longitude is the default 118.0. *)
Theorem missing_start_lon_counterexample :
  exists g, extract_radar_rainfall
              (mkRadar (Some (repeat 1%Q 16))
                       (Some [("GridDimensionX", 4%Q); ("GridDimensionY", 4%Q)]))
            = inr (mkRadarOut (mkMeta 118 20 (4 # 80) (4 # 80) 1 1) g).
Proof. eexists; vm_compute; reflexivity. Qed.

End RadarParamClaims.

(** ** Claims on extract_observation_data and extract_uv_data *)

Section StationProps.
Import Stations.

Lemma extract_obs_app_error :
  forall pre st post e,
    obs_station st = inl e ->
    exists e', extract_observation_data (pre ++ st :: post) = inl e'.
Proof.
  induction pre as [|x pre IH]; intros st post e He; simpl.
  - rewrite He. eexists; reflexivity.
  - destruct (obs_station x) as [e1|r]; [eexists; reflexivity|].
    destruct (IH st post e He) as [e' ->]. eexists; reflexivity.
Qed.

Lemma sget_notin : forall k m d, ~ In k (map fst m) -> sget k m d = d.
Proof.
  induction m as [|[k' v] m IH]; intros d Hn; simpl in *; [reflexivity|].
  destruct (String.eqb_spec k k') as [->|Hne].
  - exfalso; apply Hn; left; reflexivity.
  - apply IH; intros H; apply Hn; right; exact H.
Qed.

Lemma extract_uv_skip :
  forall pre st post,
    uv_station st = inr None ->
    extract_uv_data (pre ++ st :: post) = extract_uv_data (pre ++ post).
Proof.
  induction pre as [|x pre IH]; intros st post Hs; simpl.
  - rewrite Hs. destruct (extract_uv_data post); reflexivity.
  - rewrite (IH st post Hs). reflexivity.
Qed.

End StationProps.

Module StationClaims.
Import Stations.

Definition coord_wgs84 : coord := mkCoord (Some "WGS84") (Some 25%Q) (Some 121%Q).

Definition station_ok : station :=
  mkStation (Some [coord_wgs84]) (Some "466920") (Some "Taipei") (Some []) (Some (Some 0%Z)).

(** Same station without its [StationId] key. *)
Definition station_no_id : station :=
  mkStation (Some [coord_wgs84]) None (Some "Tamsui") (Some []) (Some (Some 0%Z)).

(** C4 (counterexample): one station lacking [StationId] next to a
    well-formed sibling makes [extract_observation_data] raise
    [KeyError] for the whole payload; no record is produced for the
    sibling. *)
Theorem missing_station_id_aborts_siblings :
  extract_observation_data [station_no_id; station_ok] = inl KeyError
  /\ extract_observation_data [station_ok] <> inl KeyError.
Proof. split; [reflexivity | discriminate]. Qed.

(** C4 (amended): if a station entry lacks [GeoInfo]/[Coordinates], or
    it has a WGS84 coordinate but lacks [WeatherElement], [StationId],
    [StationName], the coordinate's latitude or longitude, or
    [ObsTime]/[DateTime], then [extract_observation_data] raises for the
    whole payload, whatever the sibling stations are. *)
Theorem missing_key_aborts_whole_payload :
  forall (pre post : list station) (st : station),
    (s_geo st = None
     \/ exists cs c, s_geo st = Some cs /\ find_wgs84 cs = inr (Some c)
        /\ (s_we st = None \/ s_id st = None \/ s_name st = None
            \/ c_lat c = None \/ c_lon c = None \/ s_obstime st = None)) ->
    exists e, extract_observation_data (pre ++ st :: post) = inl e.
Proof.
  intros pre post st H.
  assert (Hst : exists e, obs_station st = inl e).
  { unfold obs_station.
    destruct H as [-> | (cs & c & Hg & Hf & Hm)]; [eexists; reflexivity|].
    rewrite Hg; cbn [req]. rewrite Hf.
    destruct (s_we st) as [we|]; [|eexists; reflexivity].
    destruct (s_id st) as [sid|]; [|eexists; reflexivity].
    destruct (s_name st) as [sn|]; [|eexists; reflexivity].
    destruct (c_lat c) as [la|]; [|eexists; reflexivity].
    destruct (c_lon c) as [lo|]; [|eexists; reflexivity].
    destruct (s_obstime st) as [o|]; [|eexists; reflexivity].
    exfalso. destruct Hm as [H|[H|[H|[H|[H|H]]]]]; discriminate H. }
  destruct Hst as [e He]. exact (extract_obs_app_error pre st post e He).
Qed.

Lemma missing_key_aborts_whole_payload_witness :
  exists e, extract_observation_data ([] ++ station_no_id :: [station_ok]) = inl e.
Proof.
  apply (missing_key_aborts_whole_payload [] [station_ok] station_no_id).
  right. exists [coord_wgs84], coord_wgs84. split; [reflexivity|].
  split; [reflexivity|]. right; left; reflexivity.
Defined.

(** [station['WeatherElement']['UVIndex'] = v] *)
Definition set_uv (st : station) (v : string) : station :=
  mkStation (s_geo st) (s_id st) (s_name st)
            (option_map (fun we => ("UVIndex", v) :: we) (s_we st)) (s_obstime st).

(** C10: a station with a WGS84 coordinate whose [WeatherElement] has no
    [UVIndex] key is skipped by [extract_uv_data] (the default '-99'
    meets the sentinel filter), exactly like the same station reporting
    '-99'; the output equals the output without that station. *)
Theorem uv_missing_index_excluded :
  forall (pre post : list station) (st : station) cs c we,
    s_geo st = Some cs ->
    find_wgs84 cs = inr (Some c) ->
    s_we st = Some we ->
    ~ In "UVIndex" (map fst we) ->
    uv_station st = inr None
    /\ uv_station (set_uv st "-99") = inr None
    /\ extract_uv_data (pre ++ st :: post) = extract_uv_data (pre ++ post)
    /\ extract_uv_data (pre ++ set_uv st "-99" :: post) = extract_uv_data (pre ++ post).
Proof.
  intros pre post st cs c we Hg Hf Hw Hn.
  assert (H1 : uv_station st = inr None).
  { unfold uv_station. rewrite Hg; cbn [req]. rewrite Hf, Hw; cbn [req].
    rewrite (sget_notin _ _ _ Hn). reflexivity. }
  assert (H2 : uv_station (set_uv st "-99") = inr None).
  { unfold uv_station, set_uv; simpl. rewrite Hg; cbn [req]. rewrite Hf, Hw.
    reflexivity. }
  split; [exact H1|]. split; [exact H2|].
  split; apply extract_uv_skip; assumption.
Qed.

Lemma uv_missing_index_excluded_witness :
  extract_uv_data ([station_ok] ++ station_ok :: []) = extract_uv_data ([station_ok] ++ []).
Proof.
  apply (uv_missing_index_excluded [station_ok] [] station_ok [coord_wgs84] coord_wgs84 []);
    [reflexivity | reflexivity | reflexivity | simpl; intros []].
Defined.

End StationClaims.

(** ** Claims on parse_weather_description *)

Section DescProps.
Import PyStr Desc.

Lemma dget_dset_eq : forall k v d, dget k (dset k v d) = Some v.
Proof.
  induction d as [|[k' v'] d IH]; simpl.
  - rewrite String.eqb_refl; reflexivity.
  - destruct (String.eqb_spec k k') as [->|Hne]; simpl.
    + rewrite String.eqb_refl; reflexivity.
    + apply String.eqb_neq in Hne; rewrite Hne; exact IH.
Qed.

Lemma dget_dset_neq : forall k k' v d, k <> k' -> dget k (dset k' v d) = dget k d.
Proof.
  intros k k' v d Hne; induction d as [|[k'' v''] d IH]; simpl.
  - apply String.eqb_neq in Hne; rewrite Hne; reflexivity.
  - destruct (String.eqb_spec k' k'') as [->|Hne']; simpl.
    + apply String.eqb_neq in Hne; rewrite Hne; reflexivity.
    + destruct (String.eqb k k''); [reflexivity | exact IH].
Qed.

(** The keys of the wind fields, which only the wind branch writes. *)
Definition wind_key (k : string) : Prop := k = "windDirection" \/ k = "windSpeed".

Ltac other_key :=
  match goal with
  | Hk : wind_key ?k |- ?k <> _ => destruct Hk as [->| ->]; discriminate
  end.

Lemma temp_fields_other :
  forall k part data, wind_key k -> dget k (temp_fields part data) = dget k data.
Proof.
  intros k part data Hk. unfold temp_fields.
  destruct (contains TO _).
  - destruct (split TO _) as [|mn [|mx [|? ?]]]; try reflexivity.
    destruct (py_float (strip mn)); [|reflexivity].
    destruct (py_float (strip mx));
      repeat rewrite dget_dset_neq by other_key; reflexivity.
  - destruct (py_float _); [|reflexivity]. rewrite dget_dset_neq by other_key; reflexivity.
Qed.

Lemma parse_part_non_wind :
  forall k parts data q d', wind_key k -> wind_branch q = false ->
    parse_part parts data q = Some d' -> dget k d' = dget k data.
Proof.
  intros k parts data q d' Hk Hw Hp. unfold parse_part, wind_branch in *.
  destruct (String.eqb q "") eqn:E0; [injection Hp as <-; reflexivity|].
  destruct (contains RAIN q) eqn:E1.
  { injection Hp as <-. destruct (3 <? length parts)%nat;
      repeat rewrite dget_dset_neq by other_key; reflexivity. }
  destruct (contains TEMP q) eqn:E2.
  { injection Hp as <-. apply temp_fields_other; exact Hk. }
  simpl in Hw. rewrite Hw in Hp.
  destruct (contains HUMID q).
  - injection Hp as <-. unfold humidity_fields.
    destruct (contains TO _); rewrite dget_dset_neq by other_key; reflexivity.
  - injection Hp as <-; reflexivity.
Qed.

Lemma parse_parts_app :
  forall parts data l1 l2,
    parse_parts parts data (l1 ++ l2)
    = match parse_parts parts data l1 with
      | Some d => parse_parts parts d l2
      | None => None
      end.
Proof.
  intros parts data l1; revert data; induction l1 as [|x l1 IH]; intros data l2; simpl;
    [reflexivity|].
  destruct (parse_part parts data x); [apply IH | reflexivity].
Qed.

Lemma parse_parts_non_wind :
  forall k parts l data d', wind_key k -> Forall (fun q => wind_branch q = false) l ->
    parse_parts parts data l = Some d' -> dget k d' = dget k data.
Proof.
  intros k parts l; induction l as [|q l IH]; intros data d' Hk Hl Hp; simpl in Hp.
  - injection Hp as <-; reflexivity.
  - inversion Hl as [|? ? Hq Hl']; subst.
    destruct (parse_part parts data q) as [d1|] eqn:E; [|discriminate].
    rewrite (IH d1 d' Hk Hl' Hp). exact (parse_part_non_wind k parts data q d1 Hk Hq E).
Qed.

Lemma wind_fields_fields :
  forall p data d', wind_fields p data = Some d' ->
    dget "windDirection" d'
      = match wind_direction_of p with
        | Some s => Some (VStr s) | None => dget "windDirection" data end
    /\ dget "windSpeed" d'
      = match wind_speed_of p with
        | Some z => Some (VInt z) | None => dget "windSpeed" data end.
Proof.
  intros p data d' H. unfold wind_fields, wind_speed_of, wind_direction_of in *.
  set (d1 := match find WIND p with
             | Some k => if (0 <? k)%nat
                         then dset "windDirection" (VStr (strip (substring 0 k p))) data
                         else data
             | None => data end) in *.
  assert (Hd1 : dget "windDirection" d1
                = match find WIND p with
                  | Some k => if (0 <? k)%nat then Some (VStr (strip (substring 0 k p)))
                              else dget "windDirection" data
                  | None => dget "windDirection" data end
                /\ dget "windSpeed" d1 = dget "windSpeed" data).
  { subst d1. destruct (find WIND p) as [k|]; [|split; reflexivity].
    destruct (0 <? k)%nat; [|split; reflexivity].
    rewrite dget_dset_eq, dget_dset_neq by discriminate. split; reflexivity. }
  destruct Hd1 as [HD HS].
  assert (HD' : dget "windDirection" d1
                = match (match find WIND p with
                         | Some k => if (0 <? k)%nat then Some (strip (substring 0 k p)) else None
                         | None => None end) with
                  | Some s => Some (VStr s) | None => dget "windDirection" data end).
  { rewrite HD. destruct (find WIND p) as [k|]; [destruct (0 <? k)%nat|]; reflexivity. }
  clear HD. clearbody d1.
  destruct (contains WINDSPEED p).
  2:{ injection H as <-. split; assumption. }
  destruct (contains "-" _).
  - destruct (nth_error _ 1) as [m|]; [|discriminate].
    injection H as <-. destruct (py_int m) as [z|].
    + rewrite dget_dset_neq, dget_dset_eq by discriminate. split; [exact HD' | reflexivity].
    + split; assumption.
  - destruct (String.eqb _ "").
    + injection H as <-. split; assumption.
    + destruct (py_int _) as [z|]; injection H as <-.
      * rewrite dget_dset_neq, dget_dset_eq by discriminate. split; [exact HD' | reflexivity].
      * split; assumption.
Qed.

End DescProps.

Section DescProps2.
Import PyStr Desc.

Lemma parse_parts_single_wind :
  forall parts l ps p qs data m,
    l = ps ++ p :: qs ->
    wind_branch p = true ->
    Forall (fun q => wind_branch q = false) (ps ++ qs) ->
    dget "windDirection" data = None -> dget "windSpeed" data = None ->
    parse_parts parts data l = Some m ->
    dget "windDirection" m = option_map VStr (wind_direction_of p)
    /\ dget "windSpeed" m = option_map VInt (wind_speed_of p).
Proof.
  intros parts l ps p qs data m -> Hp Hf HD HS Hm.
  apply Forall_app in Hf as [Hps Hqs].
  rewrite parse_parts_app in Hm.
  destruct (parse_parts parts data ps) as [d1|] eqn:E1; [|discriminate].
  assert (HD1 : dget "windDirection" d1 = None)
    by (rewrite (parse_parts_non_wind _ parts ps data d1 (or_introl eq_refl) Hps E1); exact HD).
  assert (HS1 : dget "windSpeed" d1 = None)
    by (rewrite (parse_parts_non_wind _ parts ps data d1 (or_intror eq_refl) Hps E1); exact HS).
  simpl in Hm. unfold parse_part in Hm at 1.
  unfold wind_branch in Hp.
  destruct (String.eqb p ""); [discriminate|].
  destruct (contains RAIN p); [discriminate|].
  destruct (contains TEMP p); [discriminate|].
  simpl in Hp. rewrite Hp in Hm.
  destruct (wind_fields p d1) as [d2|] eqn:E2; [|discriminate].
  destruct (wind_fields_fields p d1 d2 E2) as [W1 W2].
  rewrite (parse_parts_non_wind _ parts qs d2 m (or_introl eq_refl) Hqs Hm).
  rewrite (parse_parts_non_wind _ parts qs d2 m (or_intror eq_refl) Hqs Hm).
  rewrite W1, W2, HD1, HS1.
  split; [destruct (wind_direction_of p) | destruct (wind_speed_of p)]; reflexivity.
Qed.

End DescProps2.

Module DescClaims.
Import PyStr Desc.

(** A wind clause whose speed text ends with a stray '-': the
    [IndexError] of [speed_range.split('-')[1]] is not caught by the wind
    branch and reaches the outer handler. *)
Definition stray_dash_description : string := "多雲。降雨機率20%。悶熱。舒適。東風風速3級-".

(** C5 (evaluated): the description has a rain-probability clause and
    five clauses, but the result has no [comfort] field: the whole parse
    falls back to [{}]. Without the faulty wind clause, [comfort] is the
    4th clause. *)
Theorem comfort_lost_on_uncaught_wind_error :
  parse_weather_description stray_dash_description = []
  /\ dget "comfort" (parse_weather_description stray_dash_description) = None
  /\ dget "comfort" (parse_weather_description "多雲。降雨機率20%。悶熱。舒適。東風風速3級")
     = Some (VStr "舒適").
Proof. split; [vm_compute; reflexivity|]. split; vm_compute; reflexivity. Qed.

(** C7 (counterexample): for the single-level clause '東風風速1到2級'
    the code sets [windSpeed] to 12, the digits of '1到2' put together,
    not to 1, the leading digit run. *)
Theorem wind_speed_joins_all_digits :
  dget "windSpeed" (parse_weather_description "東風風速1到2級") = Some (VInt 12)
  /\ dget "windSpeed" (parse_weather_description "東風風速1到2級") <> Some (VInt 1).
Proof. split; [vm_compute; reflexivity | vm_compute; discriminate]. Qed.

(** C7 (amended): let [p] be the only clause of the description (split
    on '。') that reaches the wind branch: non-empty, containing '風速'
    and neither '降雨機率' nor '溫度攝氏'. When the parse does not fall
    back to [{}], [windDirection] is [wind_direction_of p] (the stripped
    text before the first '風' when it is not the first character, else
    absent) and [windSpeed] is [wind_speed_of p] (upper bound of an
    'a-b' range, otherwise all digits before '級' put together; absent
    when not an integer). *)
Theorem wind_fields_of_single_wind_clause :
  forall (d : string) (ps qs : list string) (p : string),
    split PERIOD d = ps ++ p :: qs ->
    wind_branch p = true ->
    Forall (fun q => wind_branch q = false) (ps ++ qs) ->
    parse_core d <> None ->
    dget "windDirection" (parse_weather_description d) = option_map VStr (wind_direction_of p)
    /\ dget "windSpeed" (parse_weather_description d) = option_map VInt (wind_speed_of p).
Proof.
  intros d ps qs p Hs Hp Hf Hc.
  unfold parse_weather_description. unfold parse_core in *.
  remember (split PERIOD d) as parts eqn:Hparts.
  set (d0 := match parts with
             | p0 :: _ => if String.eqb p0 "" then [] else [("weather", VStr (strip p0))]
             | [] => [] end) in *.
  assert (H0 : dget "windDirection" d0 = None /\ dget "windSpeed" d0 = None).
  { subst d0. destruct parts as [|p0 ?]; [split; reflexivity|].
    destruct (String.eqb p0 ""); split; reflexivity. }
  destruct H0 as [HD HS]. clearbody d0.
  destruct (parse_parts parts d0 parts) as [m|] eqn:E; [|contradiction].
  destruct (parse_parts_single_wind parts parts ps p qs d0 m Hs Hp Hf HD HS E) as [W1 W2].
  destruct (negb (dmem "rainProb" m) && (2 <? length parts)%nat);
    [rewrite !dget_dset_neq by discriminate|]; split; assumption.
Qed.

Lemma wind_fields_of_single_wind_clause_witness :
  dget "windDirection" (parse_weather_description "多雲。東北風風速3-4級")
    = option_map VStr (wind_direction_of "東北風風速3-4級")
  /\ dget "windSpeed" (parse_weather_description "多雲。東北風風速3-4級")
    = option_map VInt (wind_speed_of "東北風風速3-4級").
Proof.
  apply (wind_fields_of_single_wind_clause "多雲。東北風風速3-4級" ["多雲"] [] "東北風風速3-4級").
  - vm_compute; reflexivity.
  - vm_compute; reflexivity.
  - repeat constructor.
  - vm_compute; discriminate.
Defined.

(** C8 (evaluated): the clause '多雲' alone parses to its weather field,
    but followed by a wind clause whose range text is cut short the
    whole result is [{}]: the failure of one clause drops the fields of
    the others. *)
Theorem clause_failure_drops_other_fields :
  parse_weather_description "多雲" = [("weather", VStr "多雲")]
  /\ parse_weather_description "多雲。東風風速3級-" = []
  /\ parse_core "多雲。東風風速3級-" = None.
Proof. split; [vm_compute; reflexivity|]. split; vm_compute; reflexivity. Qed.

End DescClaims.

(** ** More properties of batch_save *)

Section BatchMore.
Import Batch.

Variable A : Type.
Variable build : A -> option exn.
Variable ident : A -> option string * option string.


Lemma wf_add_failure : forall N st d r,
  wf_stats N st -> r <> QuotaAborted -> wf_stats N (add_failure A ident st d r).
Proof.
  intros N st d r (H1 & H2 & H3) Hr. unfold add_failure.
  destruct (ident d) as [i1 i2]; simpl.
  unfold wf_stats; cbn [failed_items failed_count total_attempts]. split; [rewrite List.length_app; simpl; lia|]. split; [exact H2|].
  apply Forall_app; split; [exact H3 | constructor; [exact Hr | constructor]].
Qed.

Lemma wf_add_success : forall N st, wf_stats N st -> wf_stats N (add_success st).
Proof. intros N st H; exact H. Qed.


Lemma handle_wf : forall N ls d e,
  wf_stats N (ls_stats ls) -> ls_circuit ls = false ->
  match handle A ident ls d e with
  | inr ls' => wf_stats N (ls_stats ls') /\ ls_circuit ls' = false
               /\ ls_store ls' = ls_store ls
  | inl (e', ls') => wf_stats N (ls_stats ls') /\ e' = e
  end.
Proof.
  intros N ls d e Hw Hc. unfold handle.
  destruct (is_quota e); simpl.
  - split; [apply wf_add_failure; [exact Hw | discriminate] | reflexivity].
  - split; [apply wf_add_failure; [exact Hw | discriminate]|]. split; [exact Hc | reflexivity].
Qed.

Lemma save_item_wf : forall N bs ls d,
  wf_stats N (ls_stats ls) -> ls_circuit ls = false ->
  match save_item A build ident bs ls d with
  | inr ls' => wf_stats N (ls_stats ls') /\ ls_circuit ls' = false
               /\ exists p, ls_store ls = p ++ ls_store ls'
  | inl (e, ls') => wf_stats N (ls_stats ls') /\ (build d = Some e \/ In (Some e) (ls_store ls))
  end.
Proof.
  intros N bs ls d Hw Hc. unfold save_item. rewrite Hc.
  destruct (build d) as [e|] eqn:Hb.
  { pose proof (handle_wf N ls d e Hw Hc) as H.
    destruct (handle A ident ls d e) as [[e' ls']|ls'].
    - destruct H as [H1 ->]; split; [exact H1 | left; reflexivity].
    - destruct H as (H1 & H2 & H3); split; [exact H1|]; split; [exact H2|].
      exists []; rewrite H3; reflexivity. }
  destruct ls as [st c circ s]; simpl in *; subst circ.
  destruct s as [|o s1]; simpl.
  - destruct (bs <=? Z.pos (Pos.of_succ_nat c))%Z; simpl.
    + split; [apply wf_add_success; exact Hw|]. split; [reflexivity|]. exists []; reflexivity.
    + split; [apply wf_add_success; exact Hw|]. split; [reflexivity|]. exists []; reflexivity.
  - destruct o as [e|].
    + pose proof (handle_wf N (mkLS st c false s1) d e Hw eq_refl) as H.
      destruct (handle A ident (mkLS st c false s1) d e) as [[e' ls']|ls'].
      * destruct H as [H1 ->]; split; [exact H1 | right; left; reflexivity].
      * destruct H as (H1 & H2 & H3); split; [exact H1|]; split; [exact H2|].
        exists [Some e]; rewrite H3; reflexivity.
    + destruct (bs <=? Z.pos (Pos.of_succ_nat c))%Z.
      * destruct s1 as [|o2 s2]; simpl.
        -- split; [apply wf_add_success; exact Hw|]. split; [reflexivity|].
           exists [None]; reflexivity.
        -- destruct o2 as [e|].
           ++ pose proof (handle_wf N (mkLS (add_success st) (S c) false s2) d e
                            (wf_add_success N st Hw) eq_refl) as H.
              destruct (handle A ident (mkLS (add_success st) (S c) false s2) d e)
                as [[e' ls']|ls'].
              ** destruct H as [H1 ->]; split; [exact H1 | right; right; left; reflexivity].
              ** destruct H as (H1 & H2 & H3); split; [exact H1|]; split; [exact H2|].
                 exists [None; Some e]; rewrite H3; reflexivity.
           ++ split; [apply wf_add_success; exact Hw|]. split; [reflexivity|].
              exists [None; None]; reflexivity.
      * split; [apply wf_add_success; exact Hw|]. split; [reflexivity|].
        exists [None]; reflexivity.
Qed.

Lemma save_loop_wf : forall N bs items ls,
  wf_stats N (ls_stats ls) -> ls_circuit ls = false ->
  match save_loop A build ident bs ls items with
  | inr ls' => wf_stats N (ls_stats ls') /\ ls_circuit ls' = false
               /\ exists p, ls_store ls = p ++ ls_store ls'
  | inl (e, ls') => wf_stats N (ls_stats ls')
                    /\ ((exists d, In d items /\ build d = Some e) \/ In (Some e) (ls_store ls))
  end.
Proof.
  intros N bs items; induction items as [|d items IH]; intros ls Hw Hc; simpl.
  - split; [exact Hw|]. split; [exact Hc|]. exists []; reflexivity.
  - pose proof (save_item_wf N bs ls d Hw Hc) as H.
    destruct (save_item A build ident bs ls d) as [[e ls']|ls'].
    + destruct H as [H1 [H2|H2]]; split; [exact H1| |exact H1|].
      * left; exists d; split; [left; reflexivity | exact H2].
      * right; exact H2.
    + destruct H as (H1 & H2 & p & Hp).
      pose proof (IH ls' H1 H2) as H.
      destruct (save_loop A build ident bs ls' items) as [[e ls'']|ls''].
      * destruct H as [H3 [(d' & Hin & Hb)|Hin]]; split; [exact H3| |exact H3|].
        -- left; exists d'; split; [right; exact Hin | exact Hb].
        -- right; rewrite Hp; apply in_or_app; right; exact Hin.
      * destruct H as (H3 & H4 & p' & Hp'); split; [exact H3|]; split; [exact H4|].
        exists (p ++ p'); rewrite Hp, Hp', app_assoc; reflexivity.
Qed.

Lemma batch_save_wf : forall items bs s,
  wf_stats (length items) (stats_of (batch_save A build ident items bs s))
  /\ forall e st, batch_save A build ident items bs s = inl (e, st) ->
       (exists d, In d items /\ build d = Some e) \/ In (Some e) s.
Proof.
  intros items bs s. unfold batch_save.
  assert (H0 : wf_stats (length items) (mkStats (length items) 0 0 [])).
  { split; [reflexivity|]. split; [reflexivity | constructor]. }
  pose proof (save_loop_wf (length items) bs items
                (mkLS (mkStats (length items) 0 0 []) 0 false s) H0 eq_refl) as H.
  destruct (save_loop A build ident bs (mkLS (mkStats (length items) 0 0 []) 0 false s) items)
    as [[e ls]|ls].
  - destruct H as [H1 H2]. split; [exact H1|].
    intros e' st Heq; injection Heq as <- <-; exact H2.
  - destruct H as (H1 & H2 & p & Hp). rewrite H2. simpl in Hp.
    destruct (0 <? ls_count ls)%nat; simpl.
    + destruct (ls_store ls) as [|o s'] eqn:Hs; simpl.
      * split; [exact H1 | intros e st Heq; discriminate].
      * destruct o as [e|]; simpl.
        -- split; [exact H1|]. intros e' st Heq; injection Heq as <- <-.
           right; rewrite Hp; apply in_or_app; right; left; reflexivity.
        -- split; [exact H1 | intros e' st Heq; discriminate].
    + split; [exact H1 | intros e st Heq; discriminate].
Qed.

(** The model builders raise only [KeyError] and [ValueError]. *)
Hypothesis build_not_quota : forall d e, build d = Some e -> is_quota e = false.


Lemma save_loop_all_ok : forall bs items st c,
  exists c',
    save_loop A build ident bs (mkLS st c false []) items
    = inr (mkLS (mkStats (total_attempts st)
                         (success_count st + length (filter (build_ok build) items))
                         (failed_count st + length (filter (fun d => negb (build_ok build d)) items))
                         (failed_items st ++ build_failures build ident items))
                c' false []).
Proof.
  unfold build_ok, build_failures.
  intros bs items; induction items as [|d items IH]; intros st c.
  - exists c. destruct st; simpl. rewrite !Nat.add_0_r, app_nil_r. reflexivity.
  - cbn [save_loop filter flat_map]. unfold save_item.
    cbn [ls_circuit ls_stats ls_count ls_store pop].
    destruct (build d) as [e|] eqn:Hb; cbn [negb length].
    + unfold handle. rewrite (build_not_quota d e Hb). unfold add_failure.
      destruct (ident d) as [i1 i2] eqn:Hi. cbn [fst snd ls_stats ls_count ls_circuit ls_store].
      destruct (IH (mkStats (total_attempts st) (success_count st) (S (failed_count st))
                            (failed_items st ++ [(i1, i2, Raised e)])) c) as [c' Hc'].
      exists c'. etransitivity; [exact Hc'|]. cbn [total_attempts success_count failed_count failed_items].
      rewrite <- app_assoc. do 3 f_equal; lia.
    + destruct (bs <=? Z.of_nat (S c))%Z;
        [destruct (IH (add_success st) 0) as [c' Hc'] | destruct (IH (add_success st) (S c)) as [c' Hc']];
        exists c'; (etransitivity; [exact Hc'|]); destruct st; simpl; do 3 f_equal; lia.
Qed.

(** Inside the loop, only a quota error escapes: [handle] re-raises
    nothing else. *)
Lemma handle_raise : forall ls d e e' ls',
  handle A ident ls d e = inl (e', ls') -> e' = e /\ is_quota e = true.
Proof.
  intros ls d e e' ls' H. unfold handle in H.
  destruct (is_quota e) eqn:Hq; [injection H as <- _; split; reflexivity | discriminate].
Qed.

Lemma save_item_raise : forall bs ls d e ls',
  save_item A build ident bs ls d = inl (e, ls') -> is_quota e = true.
Proof.
  intros bs ls d e ls' H. unfold save_item in H.
  destruct (ls_circuit ls); [discriminate|].
  destruct (build d) as [e0|].
  { apply handle_raise in H; destruct H as [-> Hq]; exact Hq. }
  destruct (pop (ls_store ls)) as [[e0|] s1].
  { apply handle_raise in H; destruct H as [-> Hq]; exact Hq. }
  destruct (bs <=? Z.of_nat (S (ls_count ls)))%Z; [|discriminate].
  destruct (pop s1) as [[e0|] s2]; [|discriminate].
  apply handle_raise in H; destruct H as [-> Hq]; exact Hq.
Qed.

Lemma save_loop_raise : forall bs items ls e ls',
  save_loop A build ident bs ls items = inl (e, ls') -> is_quota e = true.
Proof.
  intros bs items; induction items as [|d items IH]; intros ls e ls' H; simpl in H.
  - discriminate.
  - destruct (save_item A build ident bs ls d) as [[e0 l0]|l0] eqn:Hs.
    + injection H as He _; subst e. exact (save_item_raise bs ls d e0 l0 Hs).
    + exact (IH l0 e ls' H).
Qed.

Lemma batch_save_raise_from_store : forall items bs s e st,
  batch_save A build ident items bs s = inl (e, st) -> In (Some e) s.
Proof.
  intros items bs s e st H. unfold batch_save in H.
  assert (H0 : wf_stats (length items) (mkStats (length items) 0 0 [])).
  { split; [reflexivity|]. split; [reflexivity | constructor]. }
  pose proof (save_loop_wf (length items) bs items
                (mkLS (mkStats (length items) 0 0 []) 0 false s) H0 eq_refl) as Hw.
  destruct (save_loop A build ident bs (mkLS (mkStats (length items) 0 0 []) 0 false s) items)
    as [[e0 ls]|ls] eqn:Hl.
  - injection H as -> _. apply save_loop_raise in Hl.
    destruct Hw as [_ [(d & _ & Hb)|Hin]]; [|exact Hin].
    rewrite (build_not_quota d e Hb) in Hl; discriminate.
  - destruct Hw as (_ & Hc & p & Hp). rewrite Hc in H. simpl in Hp.
    destruct (0 <? ls_count ls)%nat; simpl in H; [|discriminate].
    destruct (ls_store ls) as [|[e1|] s'] eqn:Hs; simpl in H; try discriminate.
    injection H as -> _. rewrite Hp. apply in_or_app; right; left; reflexivity.
Qed.

Lemma length_filter_negb : forall (f : A -> bool) l,
  length (filter f l) + length (filter (fun d => negb (f d)) l) = length l.
Proof.
  intros f l; induction l as [|d l IH]; simpl; [reflexivity|].
  destruct (f d); simpl; lia.
Qed.

Lemma batch_save_all_ok : forall items bs,
  batch_save A build ident items bs []
  = inr (mkStats (length items) (length (filter (build_ok build) items))
                 (length (filter (fun d => negb (build_ok build d)) items))
                 (build_failures build ident items)).
Proof.
  intros items bs. unfold batch_save.
  destruct (save_loop_all_ok bs items (mkStats (length items) 0 0 []) 0) as [c' ->].
  simpl. destruct (0 <? c')%nat; reflexivity.
Qed.

End BatchMore.

(* ================================================================== *)
(** * Further properties of the code *)

(** ** The model constructors of the five [batch_save] functions *)

Section ModelBuilders.
Import Batch Models.

Lemma first_error_in : forall l e, first_error l = Some e -> In (Some e) l.
Proof.
  induction l as [|o l IH]; intros e H; simpl in H; [discriminate|].
  destruct o as [e0|]; [injection H as ->; left; reflexivity | right; exact (IH e H)].
Qed.

Lemma need_not_quota : forall (T : Type) (o : option T) e, need o = Some e -> is_quota e = false.
Proof. intros T [v|] e H; simpl in H; [discriminate | injection H as <-; reflexivity]. Qed.

Lemma need_float_not_quota : forall o e, need_float o = Some e -> is_quota e = false.
Proof.
  intros [[q|]|] e H; simpl in H; try discriminate; injection H as <-; reflexivity.
Qed.

Lemma need_int_not_quota : forall o e, need_int o = Some e -> is_quota e = false.
Proof.
  intros [[z|]|] e H; simpl in H; try discriminate; injection H as <-; reflexivity.
Qed.

Ltac not_quota_item H :=
  first [ contradiction
        | exact (need_not_quota _ _ _ H)
        | exact (need_float_not_quota _ _ H)
        | exact (need_int_not_quota _ _ H)
        | injection H as <-; reflexivity ].

Lemma obs_build_not_quota : forall d e, obs_build d = Some e -> is_quota e = false.
Proof.
  intros d e H. apply first_error_in in H. simpl in H.
  repeat destruct H as [H|H]; not_quota_item H.
Qed.

Lemma fc_build_not_quota : forall d e, fc_build d = Some e -> is_quota e = false.
Proof.
  intros d e H. apply first_error_in in H. simpl in H.
  repeat destruct H as [H|H]; not_quota_item H.
Qed.



End ModelBuilders.

(** ** Strings *)

Section StringFacts.
Import PyStr.

Lemma str_append_assoc : forall a b c : string,
  String.append (String.append a b) c = String.append a (String.append b c).
Proof. induction a as [|x a IH]; intros b c; simpl; [reflexivity | rewrite IH; reflexivity]. Qed.

Lemma str_length_append : forall a b : string,
  String.length (String.append a b) = String.length a + String.length b.
Proof. induction a as [|x a IH]; intros b; simpl; [reflexivity | rewrite IH; reflexivity]. Qed.

Lemma contains_tail : forall sub c s, contains sub (String c s) = false -> contains sub s = false.
Proof.
  intros sub c s H. simpl in H. apply orb_false_iff in H. destruct H as [_ H]; exact H.
Qed.

Lemma contains_head : forall c s, contains (String c EmptyString) (String c s) = true.
Proof.
  intros c s. simpl. destruct (ascii_dec c c) as [_|Hn]; [|exfalso; apply Hn; reflexivity].
  destruct s; reflexivity.
Qed.

End StringFacts.

(** ** Radar grids *)

Section RadarFacts.
Import Radar.
Open Scope Z_scope.


Lemma in_zrange : forall z n, In z (zrange n) -> 0 <= z < n.
Proof.
  intros z n H; unfold zrange in H. apply in_map_iff in H. destruct H as (k & <- & Hk).
  apply in_seq in Hk. lia.
Qed.



Lemma in_blocks : forall x y nx ny, In (x, y) (blocks nx ny) -> 0 <= x < nx /\ 0 <= y < ny.
Proof.
  intros x y nx ny H; unfold blocks in H. apply in_flat_map in H.
  destruct H as (y' & Hy & H). apply in_map_iff in H. destruct H as (x' & Heq & Hx).
  injection Heq as -> ->. split; [apply (in_zrange _ nx Hx) | apply (in_zrange _ ny Hy)].
Qed.

Lemma in_offsets : forall xo yo, In (xo, yo) offsets -> 0 <= xo < 4 /\ 0 <= yo < 4.
Proof.
  intros xo yo H; unfold offsets in H. apply in_flat_map in H.
  destruct H as (y' & Hy & H). apply in_map_iff in H. destruct H as (x' & Heq & Hx).
  injection Heq as -> ->. split; [apply (in_zrange _ FACTOR Hx) | apply (in_zrange _ FACTOR Hy)].
Qed.


Lemma mapM_map : forall (A B : Type) (f : A -> exn + B) (g : A -> B) l,
  (forall a, In a l -> f a = inr (g a)) -> mapM f l = inr (map g l).
Proof.
  intros A B f g l; induction l as [|a l IH]; intros H; simpl; [reflexivity|].
  rewrite (H a (or_introl eq_refl)), IH; [reflexivity|].
  intros a' Ha'; apply H; right; exact Ha'.
Qed.

Lemma concat_mapM_flat : forall (A : Type) (f : A -> exn + list Q) (g : A -> list Q) l,
  (forall a, In a l -> f a = inr (g a)) -> concat_mapM f l = inr (flat_map g l).
Proof.
  intros A f g l; induction l as [|a l IH]; intros H; simpl; [reflexivity|].
  rewrite (H a (or_introl eq_refl)), IH; [reflexivity|].
  intros a' Ha'; apply H; right; exact Ha'.
Qed.

Lemma filter_map_flat : forall (A : Type) (p : Q -> bool) (h : A -> Q) l,
  filter p (map h l) = flat_map (fun a => if p (h a) then [h a] else []) l.
Proof.
  intros A p h l; induction l as [|a l IH]; simpl; [reflexivity|].
  destruct (p (h a)); simpl; rewrite IH; reflexivity.
Qed.





Lemma offsets_length : length offsets = 16%nat.
Proof. reflexivity. Qed.

End RadarFacts.

(** ** Extras on batch_save and the document ids *)

Module BatchExtras.
Import Batch.

(** X1: in every [batch_save] run (any model, store answers and
    [batch_size]), [total_attempts] is the number of input items and
    [failed_count] is the number of [failed_items] entries, in the
    returned stats and in the local stats at a raise. *)
Theorem batch_save_counts_consistent :
  forall (A : Type) (build : A -> option exn) (ident : A -> option string * option string)
         items bs s,
    total_attempts (stats_of (batch_save A build ident items bs s)) = length items
    /\ length (failed_items (stats_of (batch_save A build ident items bs s)))
       = failed_count (stats_of (batch_save A build ident items bs s)).
Proof.
  intros A build ident items bs s.
  destruct (batch_save_wf A build ident items bs s) as [(H1 & H2 & _) _].
  split; [exact H2 | exact H1].
Qed.

(** X2: no [failed_items] entry of any [batch_save] run carries the
    circuit-breaker text 'Firestore quota exceeded. Write operation
    aborted.': the [if circuit_open:] branch is never taken. *)
Theorem batch_save_never_records_circuit_abort :
  forall (A : Type) (build : A -> option exn) (ident : A -> option string * option string)
         items bs s,
    Forall (fun it : failed_item => snd it <> QuotaAborted)
           (failed_items (stats_of (batch_save A build ident items bs s))).
Proof.
  intros A build ident items bs s.
  destruct (batch_save_wf A build ident items bs s) as [(_ & _ & H3) _]. exact H3.
Qed.

(** X3: when the model constructor never raises a quota error (the
    five models raise only [KeyError] and [ValueError]), every error
    [batch_save] raises is an answer of the Firestore client: a quota
    error of a [batch.set] or [batch.commit] in the loop, or any error
    of the final [batch.commit]. *)
Theorem batch_save_raises_only_store_errors :
  forall (A : Type) (build : A -> option exn) (ident : A -> option string * option string),
    (forall d e, build d = Some e -> is_quota e = false) ->
    forall items bs s e st,
      batch_save A build ident items bs s = inl (e, st) -> In (Some e) s.
Proof.
  intros A build ident Hnq items bs s e st H.
  exact (batch_save_raise_from_store A build ident Hnq items bs s e st H).
Qed.

Lemma batch_save_raises_only_store_errors_witness :
  ObservationData_batch_save [obs_ok "1"] 500%Z [None; Some GenericError]
    = inl (GenericError, mkStats 1 1 0 [])
  /\ In (Some GenericError) [None; Some GenericError].
Proof.
  split; [reflexivity|].
  apply (batch_save_raises_only_store_errors obs_input obs_build obs_ident
           obs_build_not_quota [obs_ok "1"] 500%Z [None; Some GenericError]
           GenericError (mkStats 1 1 0 [])).
  reflexivity.
Defined.

(** X4: when every Firestore call succeeds and the model constructor
    never raises a quota error, [batch_save] returns; [success_count]
    is the number of items whose model builds, [failed_count] the
    number of the others, [failed_items] lists those others in input
    order with their error, and [success_count + failed_count =
    total_attempts]. *)
Theorem batch_save_all_writes_succeed :
  forall (A : Type) (build : A -> option exn) (ident : A -> option string * option string),
    (forall d e, build d = Some e -> is_quota e = false) ->
    forall items bs,
      batch_save A build ident items bs []
      = inr (mkStats (length items) (length (filter (build_ok build) items))
                     (length (filter (fun d => negb (build_ok build d)) items))
                     (build_failures build ident items))
      /\ length (filter (build_ok build) items)
         + length (filter (fun d => negb (build_ok build d)) items) = length items.
Proof.
  intros A build ident Hnq items bs. split.
  - exact (batch_save_all_ok A build ident Hnq items bs).
  - exact (length_filter_negb A (build_ok build) items).
Qed.

Lemma batch_save_all_writes_succeed_witness :
  (forall d e, obs_build d = Some e -> is_quota e = false)
  /\ ObservationData_batch_save
       [obs_ok "1"; mkObsInput (Some "2") None (Some (Some 25%Q)) (Some (Some 121%Q)) (Some [])]
       500%Z []
     = inr (mkStats 2 1 1 [(Some "2", None, Raised KeyError)]).
Proof.
  split; [exact obs_build_not_quota|].
  destruct (batch_save_all_writes_succeed obs_input obs_build obs_ident obs_build_not_quota
              [obs_ok "1"; mkObsInput (Some "2") None (Some (Some 25%Q)) (Some (Some 121%Q)) (Some [])]
              500%Z) as [H _].
  exact H.
Defined.

(** X5: the document id [f"{a}_{b}"] does not determine the pair: the
    distinct pairs [(a_b, c)] and [(a, b_c)] get the same id, so their
    documents overwrite each other. *)
Theorem doc_id_collision : forall a b c,
  (doc_id a b, c) <> (a, doc_id b c)
  /\ doc_id (doc_id a b) c = doc_id a (doc_id b c).
Proof.
  intros a b c. split.
  - intros H. injection H as H1 _. apply (f_equal String.length) in H1.
    unfold doc_id in H1. rewrite !str_length_append in H1. simpl in H1. lia.
  - unfold doc_id. rewrite !str_append_assoc. reflexivity.
Qed.

(** X6: when neither first component contains '_', the document id
    determines the pair. *)
Theorem doc_id_injective_without_underscore : forall a b a' b',
  PyStr.contains "_" a = false -> PyStr.contains "_" a' = false ->
  doc_id a b = doc_id a' b' -> a = a' /\ b = b'.
Proof.
  unfold doc_id. induction a as [|x a IH]; intros b a' b' Ha Ha' H; destruct a' as [|x' a'].
  - simpl in H. injection H as ->. split; reflexivity.
  - simpl in H. injection H as Hx _. subst x'. rewrite contains_head in Ha'. discriminate Ha'.
  - simpl in H. injection H as Hx _. subst x. rewrite contains_head in Ha. discriminate Ha.
  - simpl in H. injection H as -> H.
    destruct (IH b a' b' (contains_tail _ _ _ Ha) (contains_tail _ _ _ Ha') H) as [-> ->].
    split; reflexivity.
Qed.

Lemma doc_id_injective_without_underscore_witness :
  PyStr.contains "_" "Taipei" = false /\ PyStr.contains "_" "Taipei" = false
  /\ doc_id "Taipei" "466920" = doc_id "Taipei" "466920"
  /\ ("Taipei" = "Taipei" /\ "466920" = "466920").
Proof.
  split; [reflexivity|]. split; [reflexivity|]. split; [reflexivity|].
  apply (doc_id_injective_without_underscore "Taipei" "466920" "Taipei" "466920");
    reflexivity.
Defined.

End BatchExtras.

(** ** Extras on extract_radar_rainfall *)

Module RadarExtras.
Import Radar.





(** X9: the scalar fallback, on a content list holding at least
    [GridDimensionX * GridDimensionY] values and with both reduced
    dimensions positive, computes for every output cell the rounded
    mean of the cells above -99.0 of its 4x4 block (0.0 for a block
    without one), in row-major order. *)
Theorem scalar_is_valid_mean : forall data gdx gdy,
  (0 < gdx / FACTOR)%Z -> (0 < gdy / FACTOR)%Z ->
  (gdx * gdy <= Z.of_nat (length data))%Z ->
  scalar data gdx gdy (gdx / FACTOR) (gdy / FACTOR)
  = inr (map (fun '(x, y) => spec_block_mean data gdx x y) (blocks (gdx / FACTOR) (gdy / FACTOR))).
Proof.
  intros data gdx gdy Hx Hy Hlen. unfold scalar.
  apply Z.ltb_lt in Hx; apply Z.ltb_lt in Hy. rewrite Hx, Hy. simpl andb.
  apply Z.ltb_lt in Hx; apply Z.ltb_lt in Hy.
  apply mapM_map. intros [x y] Hin. apply in_blocks in Hin. destruct Hin as [Hbx Hby].
  assert (Hdx : (FACTOR * (gdx / FACTOR) <= gdx)%Z) by (apply Z.mul_div_le; unfold FACTOR; lia).
  assert (Hdy : (FACTOR * (gdy / FACTOR) <= gdy)%Z) by (apply Z.mul_div_le; unfold FACTOR; lia).
  unfold grid_values, spec_block_mean.
  rewrite (concat_mapM_flat (Z * Z) _
             (fun a => if valid ((fun '(xo, yo) =>
                          nth (Z.to_nat ((y * FACTOR + yo) * gdx + (x * FACTOR + xo))) data 0%Q) a)
                       then [(fun '(xo, yo) =>
                          nth (Z.to_nat ((y * FACTOR + yo) * gdx + (x * FACTOR + xo))) data 0%Q) a]
                       else [])).
  - rewrite <- filter_map_flat. reflexivity.
  - intros [xo yo] Hin. apply in_offsets in Hin. destruct Hin as [Hxo Hyo].
    unfold FACTOR in *.
    assert (Hox : (x * 4 + xo < gdx)%Z) by lia.
    assert (Hoy : (y * 4 + yo < gdy)%Z) by lia.
    apply Z.ltb_lt in Hox; apply Z.ltb_lt in Hoy. rewrite Hox, Hoy. simpl andb.
    apply Z.ltb_lt in Hox; apply Z.ltb_lt in Hoy.
    rewrite (nth_error_nth' data 0%Q).
    + reflexivity.
    + apply Nat2Z.inj_lt. rewrite Z2Nat.id by nia. nia.
Qed.

Lemma scalar_is_valid_mean_witness :
  (0 < 4 / FACTOR)%Z /\ (0 < 4 / FACTOR)%Z
  /\ (4 * 4 <= Z.of_nat (length (app (repeat 4%Q 15) [(-99)%Q])))%Z
  /\ scalar (app (repeat 4%Q 15) [(-99)%Q]) 4 4 (4 / FACTOR) (4 / FACTOR)
     = inr (map (fun '(x, y) => spec_block_mean (app (repeat 4%Q 15) [(-99)%Q]) 4 x y)
                (blocks (4 / FACTOR) (4 / FACTOR))).
Proof.
  split; [reflexivity|]. split; [reflexivity|]. split; [vm_compute; discriminate|].
  apply scalar_is_valid_mean; [reflexivity | reflexivity | vm_compute; discriminate].
Defined.

End RadarExtras.

(** ** Extras on parse_weather_description *)

Section SplitFacts.
Import PyStr.

Lemma split_go_nonempty : forall sep s k cur, split_go sep s k cur <> [].
Proof.
  intros sep s; induction s as [|c s IH]; intros k cur; cbn [split_go].
  - discriminate.
  - destruct k; [|apply IH]. destruct (prefix sep (String c s)); [discriminate | apply IH].
Qed.

Lemma prefix_empty : forall s, prefix "" s = true.
Proof. intros [|c s]; reflexivity. Qed.

(** Splitting on a one-character separator gives at least two fields
    exactly when the separator occurs. *)
Lemma split1_two : forall c s cur,
  (2 <= length (split_go (String c EmptyString) s 0 cur))%nat
  <-> contains (String c EmptyString) s = true.
Proof.
  intros c s; induction s as [|d s IH]; intros cur.
  - simpl. split; [lia | discriminate].
  - cbn [split_go contains prefix String.length]. rewrite Nat.sub_diag.
    destruct (ascii_dec c d).
    + rewrite prefix_empty. simpl. split; [reflexivity|]. intros _.
      pose proof (split_go_nonempty (String c EmptyString) s 0 "") as Hn.
      destruct (split_go (String c EmptyString) s 0 ""); [contradiction|]. simpl. lia.
    + simpl. apply IH.
Qed.

End SplitFacts.

Section DescKeys.
Import PyStr Desc.

Lemma dget_dset : forall k' k v d,
  dget k' (dset k v d) = if String.eqb k' k then Some v else dget k' d.
Proof.
  intros k' k v d; induction d as [|[k0 v0] d IH]; simpl.
  - reflexivity.
  - destruct (String.eqb_spec k k0) as [->|Hne]; simpl.
    + destruct (String.eqb k' k0); reflexivity.
    + rewrite IH. destruct (String.eqb_spec k' k0), (String.eqb_spec k' k); congruence.
Qed.

Lemma dset_keys : forall k' k v d,
  In k' (map fst (dset k v d)) <-> k' = k \/ In k' (map fst d).
Proof.
  intros k' k v d; induction d as [|[k0 v0] d IH]; simpl.
  - firstorder congruence.
  - destruct (String.eqb_spec k k0) as [->|Hne]; simpl; [firstorder congruence|].
    rewrite IH. firstorder congruence.
Qed.

Lemma dset_nodup : forall k v d, NoDup (map fst d) -> NoDup (map fst (dset k v d)).
Proof.
  intros k v d; induction d as [|[k0 v0] d IH]; intros H; simpl.
  - constructor; [intros []|constructor].
  - inversion H as [|? ? Hn Hd]; subst.
    destruct (String.eqb_spec k k0) as [->|Hne]; simpl; [exact H|].
    constructor; [|exact (IH Hd)].
    rewrite dset_keys. intros [->|Hin]; [exact (Hne eq_refl) | exact (Hn Hin)].
Qed.

Lemma field_key_not_weather : forall k, is_field_key k = true -> String.eqb "weather" k = false.
Proof.
  intros k H; unfold is_field_key in H.
  apply existsb_exists in H. destruct H as (k' & Hin & He).
  apply String.eqb_eq in He; subst k'. simpl in Hin.
  repeat (destruct Hin as [<-|Hin]; [reflexivity|]). contradiction.
Qed.

Lemma field_key_desc : forall k, is_field_key k = true -> In k description_keys.
Proof.
  intros k H; right. unfold is_field_key in H.
  apply existsb_exists in H. destruct H as (k' & Hin & He).
  apply String.eqb_eq in He; subst; exact Hin.
Qed.

(** A property kept by every write of a field key is kept by the
    parser. *)
Variable P : dict -> Prop.
Hypothesis P_dset : forall k v d, is_field_key k = true -> P d -> P (dset k v d).

Ltac pres_finish := repeat (apply P_dset; [reflexivity|]); assumption.

Lemma temp_fields_pres : forall part d, P d -> P (temp_fields part d).
Proof.
  intros part d Hd. unfold temp_fields. cbv zeta.
  repeat match goal with |- context [match ?x with _ => _ end] => destruct x end;
  pres_finish.
Qed.

Lemma humidity_fields_pres : forall part d, P d -> P (humidity_fields part d).
Proof.
  intros part d Hd. unfold humidity_fields. cbv zeta.
  destruct (contains TO _); pres_finish.
Qed.

Lemma wind_fields_pres : forall part d d', wind_fields part d = Some d' -> P d -> P d'.
Proof.
  intros part d d' H Hd. unfold wind_fields in H. cbv zeta in H.
  repeat match type of H with context [match ?x with _ => _ end] => destruct x end;
  try discriminate; injection H as <-; pres_finish.
Qed.

Lemma parse_part_pres : forall parts d p d',
  parse_part parts d p = Some d' -> P d -> P d'.
Proof.
  intros parts d p d' H Hd. unfold parse_part in H.
  destruct (String.eqb p ""); [injection H as <-; exact Hd|].
  destruct (contains RAIN p).
  { destruct (3 <? length parts)%nat; injection H as <-; pres_finish. }
  destruct (contains TEMP p); [injection H as <-; apply temp_fields_pres; exact Hd|].
  destruct (contains WIND p && contains WINDSPEED p);
    [exact (wind_fields_pres p d d' H Hd)|].
  destruct (contains HUMID p); injection H as <-; [apply humidity_fields_pres|]; exact Hd.
Qed.

Lemma parse_parts_pres : forall parts ps d d',
  parse_parts parts d ps = Some d' -> P d -> P d'.
Proof.
  intros parts ps; induction ps as [|p ps IH]; intros d d' H Hd; simpl in H.
  - injection H as <-; exact Hd.
  - destruct (parse_part parts d p) as [d1|] eqn:E; [|discriminate].
    exact (IH d1 d' H (parse_part_pres parts d p d1 E Hd)).
Qed.

Lemma parse_core_pres : forall s d,
  parse_core s = Some d ->
  P (match split PERIOD s with
     | p0 :: _ => if String.eqb p0 "" then [] else [("weather", VStr (strip p0))]
     | [] => []
     end) -> P d.
Proof.
  intros s d H H0. unfold parse_core in H. cbv zeta in H.
  destruct (parse_parts _ _ _) as [d1|] eqn:E; [|discriminate].
  injection H as <-. pose proof (parse_parts_pres _ _ _ _ E H0) as H1.
  destruct (negb (dmem "rainProb" d1) && _)%bool; [|exact H1].
  apply P_dset; [reflexivity | exact H1].
Qed.

End DescKeys.

Section DescAbort.
Import PyStr Desc.

Lemma wind_fields_none : forall part d,
  contains WINDSPEED part = true ->
  wind_fields part d = None
  <-> contains "-" (nth 1 (split WINDSPEED part) "") = true
      /\ contains "-" (strip (nth 0 (split LEVEL (nth 1 (split WINDSPEED part) "")) "")) = false.
Proof.
  intros part d Hw. unfold wind_fields. cbv zeta. rewrite Hw.
  destruct (contains "-" (nth 1 (split WINDSPEED part) "")).
  - set (r := strip (nth 0 (split LEVEL (nth 1 (split WINDSPEED part) "")) "")).
    pose proof (split1_two "-"%char r "") as Ht.
    destruct (nth_error (split "-" r) 1) as [m|] eqn:Hm.
    + split; [discriminate|]. intros [_ Hc].
      assert (Hl : (2 <= length (split "-" r))%nat).
      { assert (nth_error (split "-" r) 1 <> None) as Hne by congruence.
        rewrite nth_error_None in Hne. lia. }
      apply Ht in Hl. unfold r in *. congruence.
    + apply nth_error_None in Hm. split; [intros _; split; [reflexivity|]|intros _; reflexivity].
      destruct (contains "-" r) eqn:Hc; [|reflexivity].
      apply (split1_two "-"%char r "") in Hc. unfold split in Hm. lia.
  - split; [destruct (find WIND part) as [k|]; [destruct (0 <? k)%nat|]; discriminate|].
    intros [H _]; discriminate.
Qed.

Lemma parse_part_none : forall parts d p,
  parse_part parts d p = None <-> wind_abort p = true.
Proof.
  intros parts d p. unfold parse_part, wind_abort, wind_branch. cbv zeta.
  destruct (String.eqb p ""); simpl; [split; discriminate|].
  destruct (contains RAIN p); simpl; [split; discriminate|].
  destruct (contains TEMP p); simpl; [split; discriminate|].
  destruct (contains WIND p); simpl;
    [|destruct (contains HUMID p); split; discriminate].
  destruct (contains WINDSPEED p) eqn:Hw; simpl;
    [|destruct (contains HUMID p); split; discriminate].
  rewrite (wind_fields_none p d Hw).
  destruct (contains "-" (nth 1 (split WINDSPEED p) "")),
           (contains "-" (strip (nth 0 (split LEVEL (nth 1 (split WINDSPEED p) "")) "")));
    simpl; intuition discriminate.
Qed.

Lemma parse_parts_none : forall parts ps d,
  parse_parts parts d ps = None <-> exists p, In p ps /\ wind_abort p = true.
Proof.
  intros parts ps; induction ps as [|p ps IH]; intros d; simpl.
  - split; [discriminate|]. intros (p & [] & _).
  - destruct (parse_part parts d p) as [d1|] eqn:E.
    + rewrite IH. split.
      * intros (q & Hq & Ha). exists q; tauto.
      * intros (q & [<-|Hq] & Ha).
        -- apply (parse_part_none parts d) in Ha. congruence.
        -- exists q; tauto.
    + split; [intros _|reflexivity]. exists p; split; [left; reflexivity|].
      apply (parse_part_none parts d); exact E.
Qed.

End DescAbort.

Module DescExtras.
Import PyStr Desc.

(** X10: the dict returned by [parse_weather_description] never holds a
    key twice, and its keys are among weather, rainProb, comfort,
    minTemp, maxTemp, Temp, windDirection, windSpeed and humidity. *)
Theorem parse_weather_description_keys : forall s,
  NoDup (map fst (parse_weather_description s))
  /\ incl (map fst (parse_weather_description s)) description_keys.
Proof.
  intros s. unfold parse_weather_description.
  destruct (parse_core s) as [d|] eqn:E; [|split; [constructor | intros k []]].
  apply (parse_core_pres (fun d => NoDup (map fst d) /\ incl (map fst d) description_keys)
           (fun k v d Hk Hd => conj (dset_nodup k v d (proj1 Hd))
              (fun k' Hin => match proj1 (dset_keys k' k v d) Hin with
                             | or_introl e => eq_ind_r (fun x => In x description_keys)
                                                (field_key_desc k Hk) e
                             | or_intror h => proj2 Hd k' h
                             end)) s d E).
  destruct (split PERIOD s) as [|p0 ps]; [split; [constructor | intros k []]|].
  destruct (String.eqb p0 ""); simpl.
  - split; [constructor | intros k []].
  - split; [constructor; [intros []|constructor] |].
    intros k [<-|[]]; left; reflexivity.
Qed.

(** X11: when no clause makes the wind branch raise, the [weather]
    entry of the result is the stripped first clause (split on '。'),
    and it is absent when that first clause is empty. *)
Theorem parse_weather_description_weather : forall s,
  (forall p, In p (split PERIOD s) -> wind_abort p = false) ->
  dget "weather" (parse_weather_description s)
  = (let p0 := hd "" (split PERIOD s) in
     if String.eqb p0 "" then None else Some (VStr (strip p0))).
Proof.
  intros s Hs. unfold parse_weather_description.
  destruct (parse_core s) as [d|] eqn:E.
  - set (W := let p0 := hd "" (split PERIOD s) in
                if String.eqb p0 "" then None else Some (VStr (strip p0))).
    assert (Hp : forall k v d0, is_field_key k = true ->
                 dget "weather" d0 = W -> dget "weather" (dset k v d0) = W).
    { intros k v d0 Hk Hd. rewrite dget_dset, (field_key_not_weather k Hk). exact Hd. }
    apply (parse_core_pres (fun d0 => dget "weather" d0 = W) Hp s d E). unfold W.
    destruct (split PERIOD s) as [|p0 ps]; [reflexivity|]. simpl.
    destruct (String.eqb p0 ""); reflexivity.
  - exfalso. unfold parse_core in E. cbv zeta in E.
    destruct (parse_parts _ _ _) eqn:E2; [discriminate|].
    apply parse_parts_none in E2. destruct E2 as (p & Hin & Ha).
    rewrite (Hs p Hin) in Ha; discriminate.
Qed.

Lemma parse_weather_description_weather_witness :
  (forall p, In p (split PERIOD " 晴。降雨機率 10%") -> wind_abort p = false)
  /\ dget "weather" (parse_weather_description " 晴。降雨機率 10%") = Some (VStr "晴").
Proof.
  assert (H : forall p, In p (split PERIOD " 晴。降雨機率 10%") -> wind_abort p = false).
  { intros p Hp. vm_compute in Hp.
    destruct Hp as [<-|[<-|[]]]; vm_compute; reflexivity. }
  split; [exact H|].
  exact (parse_weather_description_weather " 晴。降雨機率 10%" H).
Defined.

(** X12: [parse_weather_description]'s outer [except] fires (and the
    result is [{}]) exactly when some clause reaches the wind branch
    with a '-' after its first '風速' but no '-' in the stripped text
    before the following '級': the other clause failures are caught
    inside their branch. *)
Theorem parse_weather_description_abort : forall s,
  (parse_core s = None <-> exists p, In p (split PERIOD s) /\ wind_abort p = true)
  /\ ((exists p, In p (split PERIOD s) /\ wind_abort p = true) ->
      parse_weather_description s = []).
Proof.
  intros s.
  assert (Hc : parse_core s = None <-> exists p, In p (split PERIOD s) /\ wind_abort p = true).
  { unfold parse_core. cbv zeta.
    rewrite <- (parse_parts_none (split PERIOD s) (split PERIOD s)
                  (match split PERIOD s with
                   | p0 :: _ => if String.eqb p0 "" then [] else [("weather", VStr (strip p0))]
                   | [] => []
                   end)).
    destruct (parse_parts _ _ _); split; congruence. }
  split; [exact Hc|]. intros H. apply Hc in H. unfold parse_weather_description.
  rewrite H; reflexivity.
Qed.

Lemma parse_weather_description_abort_witness :
  parse_weather_description "晴。西北風 風速3級-4" = [].
Proof.
  apply (proj2 (parse_weather_description_abort "晴。西北風 風速3級-4")).
  exists "西北風 風速3級-4". split; [vm_compute; right; left; reflexivity | vm_compute; reflexivity].
Defined.

End DescExtras.

(** ** Extras on the station extractors, extract_air_quality_data and
       the update tasks *)

Section MapMFacts.

Lemma mapM_inr_map : forall (A B C : Type) (f : A -> exn + B) (g : A -> C) (h : B -> C) l l',
  (forall a b, f a = inr b -> h b = g a) ->
  Radar.mapM f l = inr l' -> map h l' = map g l.
Proof.
  intros A B C f g h l; induction l as [|a l IH]; intros l' Hf H; simpl in H.
  - injection H as <-; reflexivity.
  - destruct (f a) as [e|b] eqn:Ea; [discriminate|].
    destruct (Radar.mapM f l) as [e|bs] eqn:El; [discriminate|].
    injection H as <-. simpl. rewrite (Hf a b Ea), (IH bs Hf eq_refl). reflexivity.
Qed.

Lemma mapM_fails_iff : forall (A B : Type) (f : A -> exn + B) l,
  (exists e, Radar.mapM f l = inl e) <-> exists a e, In a l /\ f a = inl e.
Proof.
  intros A B f l; induction l as [|a l IH]; simpl.
  - split; [intros [e H]; discriminate | intros (a & e & [] & _)].
  - destruct (f a) as [e|b] eqn:Ea.
    + split; [intros _; exists a, e; split; [left; reflexivity | exact Ea] | intros _; exists e; reflexivity].
    + destruct (Radar.mapM f l) as [e|bs] eqn:El.
      * split; [|intros _; exists e; reflexivity]. intros _.
        destruct (proj1 IH (ex_intro _ e eq_refl)) as (a' & e' & Hin & He).
        exists a', e'; split; [right; exact Hin | exact He].
      * split; [intros [e H]; discriminate|]. intros (a' & e' & [<-|Hin] & He); [congruence|].
        destruct (proj2 IH (ex_intro _ a' (ex_intro _ e' (conj Hin He)))) as [e0 H0].
        discriminate.
Qed.

End MapMFacts.

Section StationFacts.
Import PyStr Stations.

Lemma uv_station_not_sentinel : forall st r,
  uv_station st = inr (Some r) -> uv_uvIndex r <> (-99)%Z.
Proof.
  intros st r H. unfold uv_station in H.
  repeat match type of H with
         | context [match ?x with _ => _ end] => let E := fresh "E" in destruct x eqn:E
         end; try discriminate.
  injection H as <-. simpl. apply Z.eqb_neq. assumption.
Qed.

End StationFacts.

Section CleanSave.
Import Batch.


End CleanSave.

Section PreloaderFacts.
Import Models.

Definition preloader_inv (p : preloader) : Prop :=
  (firestore_started p = true <-> In PreloadFirestore (submitted p))
  /\ (r2_started p = true <-> In PreloadR2 (submitted p))
  /\ NoDup (submitted p).

Lemma nodup_snoc : forall (t : task) l, NoDup l -> ~ In t l -> NoDup (app l [t]).
Proof.
  intros t l Hl Hn. apply NoDup_app; [exact Hl | constructor; [intros []|constructor] |].
  intros x Hx [<-|[]]. exact (Hn Hx).
Qed.

Lemma start_firestore_inv : forall p, preloader_inv p ->
  preloader_inv (start_firestore_preloading p)
  /\ (In PreloadFirestore (submitted (start_firestore_preloading p)))
  /\ (In PreloadR2 (submitted (start_firestore_preloading p)) <-> In PreloadR2 (submitted p)).
Proof.
  intros p (HF & HR & HN). unfold start_firestore_preloading.
  case_eq (firestore_started p); intros E.
  - split; [split; [|split]; assumption|]. split; [apply HF; exact E | tauto].
  - unfold preloader_inv. simpl. rewrite !in_app_iff. simpl.
    assert (Hn : ~ In PreloadFirestore (submitted p)) by (rewrite <- HF, E; discriminate).
    split; [|split; [right; left; reflexivity | intuition discriminate]].
    split; [split; [intros _; right; left; reflexivity | intros _; reflexivity]|].
    split; [rewrite HR; intuition discriminate | exact (nodup_snoc _ _ HN Hn)].
Qed.

Lemma start_r2_inv : forall p, preloader_inv p ->
  preloader_inv (start_r2_preloading p)
  /\ (In PreloadR2 (submitted (start_r2_preloading p)))
  /\ (In PreloadFirestore (submitted (start_r2_preloading p))
      <-> In PreloadFirestore (submitted p)).
Proof.
  intros p (HF & HR & HN). unfold start_r2_preloading.
  case_eq (r2_started p); intros E.
  - split; [split; [|split]; assumption|]. split; [apply HR; exact E | tauto].
  - unfold preloader_inv. simpl. rewrite !in_app_iff. simpl.
    assert (Hn : ~ In PreloadR2 (submitted p)) by (rewrite <- HR, E; discriminate).
    split; [|split; [right; left; reflexivity | intuition discriminate]].
    split; [rewrite HF; intuition discriminate|].
    split; [split; [intros _; right; left; reflexivity | intros _; reflexivity] | exact (nodup_snoc _ _ HN Hn)].
Qed.

Lemma run_start_inv : forall p c, preloader_inv p ->
  preloader_inv (run_start p c)
  /\ (In PreloadFirestore (submitted (run_start p c))
      <-> In PreloadFirestore (submitted p) \/ c <> CallR2)
  /\ (In PreloadR2 (submitted (run_start p c))
      <-> In PreloadR2 (submitted p) \/ c <> CallFirestore).
Proof.
  intros p c Hp. destruct c; simpl.
  - destruct (start_firestore_inv p Hp) as (H1 & H2 & H3).
    split; [exact H1|]. split; [split; [intros _; right; discriminate | intros _; exact H2]|].
    rewrite H3. split; [intros H; left; exact H | intros [H|H]; [exact H | exfalso; apply H; reflexivity]].
  - destruct (start_r2_inv p Hp) as (H1 & H2 & H3).
    split; [exact H1|]. split.
    + rewrite H3. split; [intros H; left; exact H | intros [H|H]; [exact H | exfalso; apply H; reflexivity]].
    + split; [intros _; right; discriminate | intros _; exact H2].
  - unfold start_preloading.
    destruct (start_firestore_inv p Hp) as (H1 & H2 & H3).
    destruct (start_r2_inv _ H1) as (H4 & H5 & H6).
    split; [exact H4|]. split.
    + split; [intros _; right; discriminate | intros _; apply H6; exact H2].
    + split; [intros _; right; discriminate | intros _; exact H5].
Qed.

Lemma run_fold_inv : forall cs p, preloader_inv p ->
  preloader_inv (fold_left run_start cs p)
  /\ (In PreloadFirestore (submitted (fold_left run_start cs p))
      <-> In PreloadFirestore (submitted p) \/ exists c, In c cs /\ c <> CallR2)
  /\ (In PreloadR2 (submitted (fold_left run_start cs p))
      <-> In PreloadR2 (submitted p) \/ exists c, In c cs /\ c <> CallFirestore).
Proof.
  intros cs; induction cs as [|c cs IH]; intros p Hp; simpl.
  - split; [exact Hp|]. split; split; (intros [H|(c & [] & _)] || intros H); auto.
  - destruct (run_start_inv p c Hp) as (H1 & H2 & H3).
    destruct (IH _ H1) as (H4 & H5 & H6).
    split; [exact H4|]. rewrite H5, H6, H2, H3.
    split; split.
    + intros [[H|H]|(c' & Hc & H)]; [left; exact H | right; exists c; auto | right; exists c'; auto].
    + intros [H|(c' & [<-|Hc] & H)]; [left; left; exact H | left; right; exact H | right; exists c'; auto].
    + intros [[H|H]|(c' & Hc & H)]; [left; exact H | right; exists c; auto | right; exists c'; auto].
    + intros [H|(c' & [<-|Hc] & H)]; [left; left; exact H | left; right; exact H | right; exists c'; auto].
Qed.

End PreloaderFacts.

Module PipelineExtras.
Import Batch Stations Models.

(** X13: every record returned by [extract_uv_data] has a UV index
    other than the -99 sentinel. *)
Theorem extract_uv_data_no_sentinel : forall sts recs,
  extract_uv_data sts = inr recs -> Forall (fun r => uv_uvIndex r <> (-99)%Z) recs.
Proof.
  intros sts; induction sts as [|st sts IH]; intros recs H; simpl in H.
  - injection H as <-; constructor.
  - destruct (uv_station st) as [e|o] eqn:E1; [discriminate|].
    destruct (extract_uv_data sts) as [e|rest] eqn:E2; [discriminate|].
    injection H as <-. destruct o as [r|]; [|exact (IH rest eq_refl)].
    constructor; [exact (uv_station_not_sentinel st r E1) | exact (IH rest eq_refl)].
Qed.

Definition wgs84_station (uv : string) : station :=
  mkStation (Some [mkCoord (Some "TWD67") None None; mkCoord (Some "WGS84") (Some 25%Q) (Some 121%Q)])
            (Some "466920") (Some "Taipei") (Some [("UVIndex", uv)]) (Some (Some 0%Z)).

Lemma extract_uv_data_no_sentinel_witness :
  extract_uv_data [wgs84_station "5"; wgs84_station "-99"]
  = inr [mkUvRecord "466920" "Taipei" 25%Q 121%Q 5%Z 0%Z]
  /\ Forall (fun r => uv_uvIndex r <> (-99)%Z) [mkUvRecord "466920" "Taipei" 25%Q 121%Q 5%Z 0%Z].
Proof.
  split; [vm_compute; reflexivity|].
  exact (extract_uv_data_no_sentinel [wgs84_station "5"; wgs84_station "-99"]
           [mkUvRecord "466920" "Taipei" 25%Q 121%Q 5%Z 0%Z] ltac:(vm_compute; reflexivity)).
Defined.

(** X14: a station whose coordinate list has no 'WGS84' entry (and no
    entry without a CoordinateName before the end) is skipped by both
    [extract_observation_data] and [extract_uv_data], whatever its other
    fields hold. *)
Theorem station_without_wgs84_skipped : forall st cs sts,
  s_geo st = Some cs -> find_wgs84 cs = inr None ->
  extract_observation_data (st :: sts) = extract_observation_data sts
  /\ extract_uv_data (st :: sts) = extract_uv_data sts.
Proof.
  intros st cs sts Hg Hf. simpl. unfold obs_station, uv_station. rewrite Hg. simpl. rewrite Hf.
  split; destruct (_ sts) as [e|rest]; reflexivity.
Qed.

Lemma station_without_wgs84_skipped_witness :
  let st := mkStation (Some [mkCoord (Some "TWD67") None None]) None None None None in
  s_geo st = Some [mkCoord (Some "TWD67") None None]
  /\ find_wgs84 [mkCoord (Some "TWD67") None None] = inr None
  /\ extract_observation_data [st; wgs84_station "5"]
     = extract_observation_data [wgs84_station "5"]
  /\ extract_uv_data [st; wgs84_station "5"] = extract_uv_data [wgs84_station "5"].
Proof.
  intros st. split; [reflexivity|]. split; [reflexivity|].
  exact (station_without_wgs84_skipped st [mkCoord (Some "TWD67") None None]
           [wgs84_station "5"] eq_refl eq_refl).
Defined.

(** X15: extracting the stations of two lists one after the other is
    extracting their concatenation: the records are appended in order,
    and the first raising station (in list order) decides the error; for
    both [extract_observation_data] and [extract_uv_data]. *)
Theorem station_extractors_append : forall l1 l2,
  extract_observation_data (app l1 l2)
  = (r1 <- extract_observation_data l1 ;; r2 <- extract_observation_data l2 ;; inr (app r1 r2))
  /\ extract_uv_data (app l1 l2)
  = (r1 <- extract_uv_data l1 ;; r2 <- extract_uv_data l2 ;; inr (app r1 r2)).
Proof.
  intros l1 l2; induction l1 as [|st l1 [IH1 IH2]]; simpl.
  - split; destruct (_ l2); reflexivity.
  - rewrite IH1, IH2. split.
    + destruct (obs_station st) as [e|[r|]]; [reflexivity| |];
      destruct (extract_observation_data l1), (extract_observation_data l2); reflexivity.
    + destruct (uv_station st) as [e|[r|]]; [reflexivity| |];
      destruct (extract_uv_data l1), (extract_uv_data l2); reflexivity.
Qed.


End PipelineExtras.

Module AirQualityExtras.
Import AirQuality.

(** X17: [extract_air_quality_data] on a non-empty payload raises
    exactly when some station has no [publishtime] or one that
    [strptime] rejects; missing or malformed measurements and
    coordinates never make it raise. *)
Theorem extract_air_quality_fails_iff : forall ic fc sp sts,
  (exists e, extract_air_quality_data ic fc sp (Some sts) = inl e)
  <-> exists st, In st sts
                 /\ match a_publishtime st with None => True | Some p => sp p = None end.
Proof.
  intros ic fc sp sts. unfold extract_air_quality_data. rewrite mapM_fails_iff.
  split.
  - intros (st & e & Hin & He). exists st; split; [exact Hin|].
    unfold aq_station_data in He. cbv zeta in He.
    destruct (a_publishtime st) as [p|]; [|exact I].
    destruct (sp p); [discriminate | reflexivity].
  - intros (st & Hin & Hp). unfold aq_station_data. cbv zeta.
    destruct (a_publishtime st) as [p|] eqn:E.
    + exists st, ValueError. rewrite E, Hp. split; [exact Hin | reflexivity].
    + exists st, GenericError. rewrite E. split; [exact Hin | reflexivity].
Qed.

(** X18: when [extract_air_quality_data] returns, it returns one record
    per station, in order, whose stationId, stationName, county and
    publishTime are the station's siteid, sitename, county and
    publishtime. *)
Theorem extract_air_quality_identity : forall ic fc sp sts recs,
  extract_air_quality_data ic fc sp (Some sts) = inr recs ->
  map (fun r => (r_stationId r, r_stationName r, r_county r, r_publishTime r)) recs
  = map (fun st => (a_siteid st, a_sitename st, a_county st, a_publishtime st)) sts.
Proof.
  intros ic fc sp sts recs H. unfold extract_air_quality_data in H.
  refine (mapM_inr_map _ _ _ _ _ _ sts recs _ H).
  intros st r Hr. unfold aq_station_data in Hr. cbv zeta in Hr.
  destruct (a_publishtime st) as [p|] eqn:E; [|discriminate].
  destruct (sp p); [|discriminate]. injection Hr as <-. reflexivity.
Qed.

Definition aq_site (id pt : string) : aq_station :=
  mkAqStation (Some id) (Some "Banqiao") (Some "New Taipei") (Some "Good") (Some "--")
              None None None None None None None (Some "25.01") (Some "121.45") (Some pt).

Lemma extract_air_quality_identity_witness :
  let sts := [aq_site "1" "2024/01/01 10:00:00"; aq_site "2" "2024/01/01 10:00:00"] in
  extract_air_quality_data (fun _ => None) (fun _ => Some 1%Q) (fun _ => Some 0%Q) (Some sts)
  = inr (map (fun st => mkAqRecord (a_siteid st) (Some "Banqiao") (Some "New Taipei")
                          (NFloat 1) (NFloat 1)
                          (mkAqMeas (NInt (-99)) (Some "Good") (NInt (-99)) (NInt (-99))
                                    (NInt (-99)) (NInt (-99)) (NInt (-99)) (NInt (-99)) (NInt (-99)))
                          (Some "2024/01/01 10:00:00") 0%Q) sts)
  /\ map (fun r => (r_stationId r, r_stationName r, r_county r, r_publishTime r))
       (map (fun st => mkAqRecord (a_siteid st) (Some "Banqiao") (Some "New Taipei")
                          (NFloat 1) (NFloat 1)
                          (mkAqMeas (NInt (-99)) (Some "Good") (NInt (-99)) (NInt (-99))
                                    (NInt (-99)) (NInt (-99)) (NInt (-99)) (NInt (-99)) (NInt (-99)))
                          (Some "2024/01/01 10:00:00") 0%Q) sts)
     = map (fun st => (a_siteid st, a_sitename st, a_county st, a_publishtime st)) sts.
Proof.
  intros sts. assert (H : extract_air_quality_data (fun _ => None) (fun _ => Some 1%Q)
                            (fun _ => Some 0%Q) (Some sts)
    = inr (map (fun st => mkAqRecord (a_siteid st) (Some "Banqiao") (Some "New Taipei")
                          (NFloat 1) (NFloat 1)
                          (mkAqMeas (NInt (-99)) (Some "Good") (NInt (-99)) (NInt (-99))
                                    (NInt (-99)) (NInt (-99)) (NInt (-99)) (NInt (-99)) (NInt (-99)))
                          (Some "2024/01/01 10:00:00") 0%Q) sts)) by (vm_compute; reflexivity).
  split; [exact H|].
  exact (extract_air_quality_identity _ _ _ sts _ H).
Defined.

End AirQualityExtras.

Module ClientExtras.
Import Models.

(** X19: successive [get_firestore_client()] calls in one process that
    start with no cached client: each call whose [firestore.client()]
    raises re-raises and leaves the cache empty, so the next call tries
    again; from the first call that creates a client on, every call
    returns that same client without creating another. *)
Theorem firestore_client_cached_after_first_success :
  forall (client : Type) (es : list exn) (c : client) (rest : list (exn + client)),
  firestore_calls client None (app (map inl es) (inr c :: rest))
  = app (map inl es) (inr c :: repeat (inr c) (length rest)).
Proof.
  intros client es c rest. induction es as [|e es IH]; simpl.
  - f_equal. induction rest as [|cr rest IHr]; simpl; [reflexivity|]. rewrite IHr. reflexivity.
  - rewrite IH. reflexivity.
Qed.

(** X20: whatever sequence of preloading calls the tasks make on one
    [ClientPreloader], each preload task is submitted to the executor at
    most once; the Firestore task is submitted iff some call was
    [start_firestore_preloading] or [start_preloading], the R2 task iff
    some call was [start_r2_preloading] or [start_preloading]. *)
Theorem preloader_submits_each_task_once : forall cs,
  NoDup (submitted (run_starts cs))
  /\ (In PreloadFirestore (submitted (run_starts cs)) <-> exists c, In c cs /\ c <> CallR2)
  /\ (In PreloadR2 (submitted (run_starts cs)) <-> exists c, In c cs /\ c <> CallFirestore).
Proof.
  intros cs. unfold run_starts.
  assert (H0 : preloader_inv new_preloader).
  { split; [|split]; simpl; [split; [discriminate | intros []] | split; [discriminate | intros []] | constructor]. }
  destruct (run_fold_inv cs new_preloader H0) as ((_ & _ & HN) & HF & HR).
  split; [exact HN|]. rewrite HF, HR. simpl. split; split; tauto.
Qed.

End ClientExtras.

(** ** Extras on extract_three_hour_forecast and extract_weekly_forecast *)

Section DescKeysLemma.
Import PyStr Desc.

Lemma pwd_keys : forall s,
  NoDup (map fst (parse_weather_description s))
  /\ incl (map fst (parse_weather_description s)) description_keys.
Proof.
  intros s. unfold parse_weather_description.
  destruct (parse_core s) as [d|] eqn:E; [|split; [constructor | intros k []]].
  apply (parse_core_pres (fun d => NoDup (map fst d) /\ incl (map fst d) description_keys)
           (fun k v d Hk Hd => conj (dset_nodup k v d (proj1 Hd))
              (fun k' Hin => match proj1 (dset_keys k' k v d) Hin with
                             | or_introl e => eq_ind_r (fun x => In x description_keys)
                                                (field_key_desc k Hk) e
                             | or_intror h => proj2 Hd k' h
                             end)) s d E).
  destruct (split PERIOD s) as [|p0 ps]; [split; [constructor | intros k []]|].
  destruct (String.eqb p0 ""); simpl.
  - split; [constructor | intros k []].
  - split; [constructor; [intros []|constructor] |].
    intros k [<-|[]]; left; reflexivity.
Qed.

End DescKeysLemma.

Section ForecastFacts.
Import PyStr Desc Stations Forecast.

Lemma fget_fset : forall (V : Type) k' k (v : V) m,
  fget k' (fset k v m) = if String.eqb k' k then Some v else fget k' m.
Proof.
  intros V k' k v m; induction m as [|[k0 v0] m IH]; simpl.
  - reflexivity.
  - destruct (String.eqb_spec k k0) as [->|Hne]; simpl.
    + destruct (String.eqb k' k0); reflexivity.
    + rewrite IH. destruct (String.eqb_spec k' k0), (String.eqb_spec k' k); congruence.
Qed.

Lemma in_fset : forall (V : Type) x k (v : V) m, In x (fset k v m) -> x = (k, v) \/ In x m.
Proof.
  intros V x k v m; induction m as [|[k0 v0] m IH]; simpl; intros H.
  - destruct H as [<-|[]]; left; reflexivity.
  - destruct (String.eqb_spec k k0) as [->|Hne]; simpl in H.
    + destruct H as [<-|H]; [left; reflexivity | right; right; exact H].
    + destruct H as [<-|H]; [right; left; reflexivity|].
      destruct (IH H) as [E|E]; [left; exact E | right; right; exact E].
Qed.

Lemma fset_keys : forall (V : Type) k (v : V) m,
  map fst (fset k v m)
  = if existsb (String.eqb k) (map fst m) then map fst m else app (map fst m) [k].
Proof.
  intros V k v m; induction m as [|[k0 v0] m IH]; simpl; [reflexivity|].
  destruct (String.eqb_spec k k0) as [->|Hne]; simpl.
  - reflexivity.
  - rewrite IH. destruct (existsb (String.eqb k) (map fst m)); reflexivity.
Qed.

Lemma fget_in : forall (V : Type) k (v : V) m, fget k m = Some v -> In (k, v) m.
Proof.
  intros V k v m; induction m as [|[k0 v0] m IH]; simpl; intros H; [discriminate|].
  destruct (String.eqb_spec k k0) as [->|_]; [injection H as <-; left; reflexivity|].
  right; exact (IH H).
Qed.

Lemma fget_some_key : forall (V : Type) k (v : V) m,
  fget k m = Some v -> existsb (String.eqb k) (map fst m) = true.
Proof.
  intros V k v m H. apply existsb_exists. exists k. split; [|apply String.eqb_refl].
  apply in_map_iff. exists (k, v). split; [reflexivity | exact (fget_in V k v m H)].
Qed.

Lemma fget_update : forall w f k, ~ In k (map fst w) -> fget k (update f w) = fget k f.
Proof.
  intros w; induction w as [|[k0 v0] w IH]; intros f k Hk; simpl; [reflexivity|].
  simpl in Hk. rewrite IH by tauto. rewrite fget_fset.
  destruct (String.eqb_spec k k0) as [->|_]; [exfalso; tauto | reflexivity].
Qed.

(** Every forecast dict of a time map carries its own key as
    [startTime]. *)
Definition start_inv (tm : list (string * fdict)) : Prop :=
  forall k f, In (k, f) tm -> fget "startTime" f = Some (Some (VStr k)).

Lemma start_inv_fset : forall tm k f,
  start_inv tm -> fget "startTime" f = Some (Some (VStr k)) -> start_inv (fset k f tm).
Proof.
  intros tm k f Hi Hf k' f' Hin. apply in_fset in Hin.
  destruct Hin as [E|Hin]; [injection E as -> ->; exact Hf | exact (Hi _ _ Hin)].
Qed.

Lemma desc_entry_ok : forall iso tp k f,
  desc_entry iso tp = inr (k, f) ->
  tp_StartTime tp = Some k /\ fget "startTime" f = Some (Some (VStr k)).
Proof.
  intros iso tp k f H. unfold desc_entry in H. cbv zeta in H.
  destruct (tp_StartTime tp) as [st|]; [|discriminate].
  destruct (iso _); [|discriminate].
  destruct (tp_ElementValue tp) as [[|e0 l]|]; [discriminate| |];
    injection H as <- <-; (split; [reflexivity|]); [|reflexivity];
    (rewrite fget_update; [reflexivity|]); intros Hin;
    apply (proj2 (pwd_keys _)) in Hin; simpl in Hin;
    repeat (destruct Hin as [Hin|Hin]; [discriminate Hin|]); contradiction.
Qed.

Definition first_step (acc : list string) (x : string) : list string :=
  if existsb (String.eqb x) acc then acc else app acc [x].

Lemma desc_periods_keys : forall iso tps tm tm',
  foldM (fun tm tp => p <- desc_entry iso tp ;; inr (fset (fst p) (snd p) tm)) tm tps = inr tm' ->
  map fst tm' = fold_left first_step
                  (flat_map (fun tp => match tp_StartTime tp with Some s => [s] | None => [] end) tps)
                  (map fst tm)
  /\ (start_inv tm -> start_inv tm').
Proof.
  intros iso tps; induction tps as [|tp tps IH]; intros tm tm' H; simpl in H.
  - injection H as <-. split; [reflexivity | tauto].
  - destruct (desc_entry iso tp) as [e|[k f]] eqn:E; [discriminate|].
    destruct (desc_entry_ok iso tp k f E) as [Hs Hf].
    destruct (IH _ _ H) as [H1 H2]. simpl. rewrite Hs. simpl. split.
    + rewrite H1, fset_keys. reflexivity.
    + intros Hi. apply H2. exact (start_inv_fset tm k f Hi Hf).
Qed.

Lemma desc_pass_keys : forall iso els tm tm',
  desc_pass iso tm els = inr tm' ->
  map fst tm' = fold_left first_step
                  (flat_map (fun el =>
                     if name_is DESC el
                     then flat_map (fun tp => match tp_StartTime tp with Some s => [s] | None => [] end)
                                   (el_Time el)
                     else []) els)
                  (map fst tm)
  /\ (start_inv tm -> start_inv tm').
Proof.
  intros iso els. unfold desc_pass.
  induction els as [|el els IH]; intros tm tm' H; simpl in H.
  - injection H as <-. split; [reflexivity | tauto].
  - simpl. destruct (name_is DESC el).
    + destruct (foldM _ tm (el_Time el)) as [e|tm1] eqn:E; [discriminate|].
      destruct (desc_periods_keys iso _ _ _ E) as [K1 I1].
      destruct (IH _ _ H) as [K2 I2].
      rewrite fold_left_app, <- K1. split; [exact K2 | tauto].
    + exact (IH _ _ H).
Qed.

Lemma value_period_keys : forall key src dst tm tp tm',
  dst <> "startTime" ->
  value_period key src dst tm tp = inr tm' ->
  map fst tm' = map fst tm /\ (start_inv tm -> start_inv tm').
Proof.
  intros key src dst tm tp tm' Hd H. unfold value_period in H. cbv zeta in H.
  destruct (key tp) as [t|]; [|injection H as <-; split; [reflexivity | tauto]].
  destruct (fget t tm) as [f|] eqn:Ef; [|injection H as <-; split; [reflexivity | tauto]].
  assert (Hf : forall x, map fst (fset t (fset dst x f) tm) = map fst tm
                         /\ (start_inv tm -> start_inv (fset t (fset dst x f) tm))).
  { intros x. split.
    - pose proof (fget_some_key _ _ _ _ Ef) as K. unfold fdict in K.
      rewrite fset_keys, K. reflexivity.
    - intros Hi. apply start_inv_fset; [exact Hi|]. rewrite fget_fset.
      destruct (String.eqb_spec "startTime" dst) as [E|_]; [congruence|].
      apply Hi, fget_in; exact Ef. }
  destruct (match tp_ElementValue tp with Some (e0 :: _) => lookup src e0 | _ => None end)
    as [v|].
  - destruct (py_float v); [|discriminate]. injection H as <-. apply Hf.
  - injection H as <-. apply Hf.
Qed.

Lemma value_pass_keys : forall name key src dst els tm tm',
  dst <> "startTime" ->
  value_pass name key src dst tm els = inr tm' ->
  map fst tm' = map fst tm /\ (start_inv tm -> start_inv tm').
Proof.
  intros name key src dst els. unfold value_pass.
  induction els as [|el els IH]; intros tm tm' Hd H; simpl in H.
  - injection H as <-. split; [reflexivity | tauto].
  - destruct (name_is name el); [|exact (IH _ _ Hd H)].
    destruct (foldM (value_period key src dst) tm (el_Time el)) as [e|tm1] eqn:E; [discriminate|].
    destruct (IH _ _ Hd H) as [K2 I2].
    assert (Hp : forall tps tm tm', foldM (value_period key src dst) tm tps = inr tm' ->
                 map fst tm' = map fst tm /\ (start_inv tm -> start_inv tm')).
    { intros tps; induction tps as [|tp tps IHp]; intros tm0 tm0' H0; simpl in H0.
      - injection H0 as <-. split; [reflexivity | tauto].
      - destruct (value_period key src dst tm0 tp) as [e|tm2] eqn:E2; [discriminate|].
        destruct (value_period_keys key src dst tm0 tp tm2 Hd E2) as [K I].
        destruct (IHp _ _ H0) as [K' I']. rewrite K', K. split; [reflexivity | tauto]. }
    destruct (Hp _ _ _ E) as [K1 I1]. rewrite K2, K1. split; [reflexivity | tauto].
Qed.

Lemma start_inv_map : forall tm, start_inv tm ->
  map (fget "startTime") (map snd tm) = map (fun k => Some (Some (VStr k))) (map fst tm).
Proof.
  intros tm; induction tm as [|[k f] tm IH]; simpl; intros Hi; [reflexivity|].
  rewrite (Hi k f (or_introl eq_refl)), IH; [reflexivity|].
  intros k' f' H; apply Hi; right; exact H.
Qed.

(** What the extractors keep of one town. *)
Definition town_summary (o : town_out) : option string * option string * list (option (option pyv)) :=
  (o_countyName o, o_townName o, map (fget "startTime") (o_forecasts o)).

Definition town_expected (cn : option string) (t : town)
  : option string * option string * list (option (option pyv)) :=
  (cn, t_LocationName t, map (fun k => Some (Some (VStr k))) (nodup_first (desc_starts t))).

Lemma town_three_hour_summary : forall iso cn t o,
  town_three_hour iso cn t = inr o -> town_summary o = town_expected cn t.
Proof.
  intros iso cn t o H. unfold town_three_hour in H.
  destruct (float_or_zero (t_Latitude t)); [discriminate|].
  destruct (float_or_zero (t_Longitude t)); [discriminate|].
  destruct (desc_pass iso [] (t_WeatherElement t)) as [e|tm1] eqn:E1; [discriminate|].
  destruct (value_pass _ _ _ _ tm1 (t_WeatherElement t)) as [e|tm2] eqn:E2; [discriminate|].
  injection H as <-. unfold town_summary, town_expected. simpl.
  destruct (desc_pass_keys iso _ _ _ E1) as [K1 I1].
  assert (Hd : "apparent_temperature" <> "startTime") by discriminate.
  destruct (value_pass_keys _ _ _ _ _ _ _ Hd E2) as [K2 I2].
  rewrite start_inv_map; [|apply I2, I1; intros k f []].
  rewrite K2, K1. reflexivity.
Qed.

Lemma town_weekly_summary : forall iso cn t o,
  town_weekly iso cn t = inr o -> town_summary o = town_expected cn t.
Proof.
  intros iso cn t o H. unfold town_weekly in H.
  destruct (float_or_zero (t_Latitude t)); [discriminate|].
  destruct (float_or_zero (t_Longitude t)); [discriminate|].
  destruct (desc_pass iso [] (t_WeatherElement t)) as [e|tm1] eqn:E1; [discriminate|].
  destruct (value_pass MAX_APPARENT _ _ _ tm1 (t_WeatherElement t)) as [e|tm2] eqn:E2;
    [discriminate|].
  destruct (value_pass MIN_APPARENT _ _ _ tm2 (t_WeatherElement t)) as [e|tm3] eqn:E3;
    [discriminate|].
  injection H as <-. unfold town_summary, town_expected. simpl.
  destruct (desc_pass_keys iso _ _ _ E1) as [K1 I1].
  assert (Hd2 : "max_apparent_temperature" <> "startTime") by discriminate.
  assert (Hd3 : "min_apparent_temperature" <> "startTime") by discriminate.
  destruct (value_pass_keys _ _ _ _ _ _ _ Hd2 E2) as [K2 I2].
  destruct (value_pass_keys _ _ _ _ _ _ _ Hd3 E3) as [K3 I3].
  rewrite start_inv_map; [|apply I3, I2, I1; intros k f []].
  rewrite K3, K2, K1. reflexivity.
Qed.

Lemma extract_towns : forall (f : option string -> town -> exn + town_out) locs out,
  (forall cn t o, f cn t = inr o -> town_summary o = town_expected cn t) ->
  Radar.mapM (fun l => Radar.mapM (f (l_LocationsName l)) (l_Location l)) locs = inr out ->
  map town_summary (concat out)
  = flat_map (fun l => map (town_expected (l_LocationsName l)) (l_Location l)) locs.
Proof.
  intros f locs out Hf H. rewrite concat_map, flat_map_concat_map. f_equal.
  refine (mapM_inr_map _ _ _ _ _ _ locs out _ H).
  intros l b Hb. exact (mapM_inr_map _ _ _ _ _ _ _ b (Hf (l_LocationsName l)) Hb).
Qed.

End ForecastFacts.

Module ForecastExtras.
Import PyStr Desc Stations Forecast.

(** X21: when [extract_three_hour_forecast] returns, it returns one
    town dict per town of each location, in order, with the location's
    countyName and the town's townName; a town's forecasts list holds one
    dict per distinct StartTime of its '天氣預報綜合描述' periods, in the
    order those times first appear (a repeated StartTime replaces the
    dict but keeps its place), and each dict's startTime is that time. *)
Theorem extract_three_hour_forecast_towns : forall iso locs out,
  extract_three_hour_forecast iso locs = inr out ->
  map town_summary out
  = flat_map (fun l => map (town_expected (l_LocationsName l)) (l_Location l)) locs.
Proof.
  intros iso locs out H. unfold extract_three_hour_forecast in H.
  destruct locs as [|l0 ls]; [injection H as <-; reflexivity|].
  destruct (Radar.mapM _ (l0 :: ls)) as [e|outs] eqn:E; [discriminate|].
  injection H as <-. exact (extract_towns (town_three_hour iso) _ outs
                              (town_three_hour_summary iso) E).
Qed.

Definition desc_period (start : string) : time_period :=
  mkTP (Some start) (Some "2024-01-01T12:00:00+08:00") None
       (Some [[("WeatherDescription", "晴。降雨機率 10%")]]).

Definition sample_location : location :=
  mkLocation (Some "New Taipei")
    [mkTown (Some "Banqiao") (Some "6500100") (Some "25.01") (Some "121.45")
       [mkElement (Some DESC) [desc_period "2024-01-01T06:00:00+08:00";
                               desc_period "2024-01-01T09:00:00+08:00";
                               desc_period "2024-01-01T06:00:00+08:00"]]].

Lemma extract_three_hour_forecast_towns_witness :
  let out := match extract_three_hour_forecast (fun _ => Some 0%Q) [sample_location] with
             | inr o => o | inl _ => [] end in
  extract_three_hour_forecast (fun _ => Some 0%Q) [sample_location] = inr out
  /\ map town_summary out
     = [(Some "New Taipei", Some "Banqiao",
         [Some (Some (VStr "2024-01-01T06:00:00+08:00"));
          Some (Some (VStr "2024-01-01T09:00:00+08:00"))])].
Proof.
  intros out. assert (H : extract_three_hour_forecast (fun _ => Some 0%Q) [sample_location] = inr out)
    by (vm_compute; reflexivity).
  split; [exact H|].
  rewrite (extract_three_hour_forecast_towns _ _ _ H). vm_compute. reflexivity.
Defined.

(** X22: the same for [extract_weekly_forecast]: one town dict per town
    of each location, in order, with countyName and townName, and one
    forecast dict per distinct StartTime of the '天氣預報綜合描述'
    periods, in first-appearance order, whose startTime is that time. *)
Theorem extract_weekly_forecast_towns : forall iso locs out,
  extract_weekly_forecast iso locs = inr out ->
  map town_summary out
  = flat_map (fun l => map (town_expected (l_LocationsName l)) (l_Location l)) locs.
Proof.
  intros iso locs out H. unfold extract_weekly_forecast in H.
  destruct (Radar.mapM _ locs) as [e|outs] eqn:E; [discriminate|].
  injection H as <-. exact (extract_towns (town_weekly iso) _ outs (town_weekly_summary iso) E).
Qed.

Lemma extract_weekly_forecast_towns_witness :
  let out := match extract_weekly_forecast (fun _ => Some 0%Q) [sample_location] with
             | inr o => o | inl _ => [] end in
  extract_weekly_forecast (fun _ => Some 0%Q) [sample_location] = inr out
  /\ map town_summary out
     = [(Some "New Taipei", Some "Banqiao",
         [Some (Some (VStr "2024-01-01T06:00:00+08:00"));
          Some (Some (VStr "2024-01-01T09:00:00+08:00"))])].
Proof.
  intros out. assert (H : extract_weekly_forecast (fun _ => Some 0%Q) [sample_location] = inr out)
    by (vm_compute; reflexivity).
  split; [exact H|].
  rewrite (extract_weekly_forecast_towns _ _ _ H). vm_compute. reflexivity.
Defined.

End ForecastExtras.
